(** * permit-node: the API-context gate, the 'ready' event and elements login

    A shallow embedding of
      - [src/api/base.ts]   ([BasePermitApi]: lazy scope resolution and the
        two guards [ensureAccessLevel] / [ensureContext]),
      - [src/index.ts]      ([AuthorizonSDK.init] and its event emitter),
      - the elements client ([ElementsClient.loginAs]),
    together with the properties the specification states about them. *)

From Stdlib Require Import ZArith List Bool Lia.
From stdpp Require Import base strings gmap list.
Import ListNotations.

Local Open Scope Z_scope.
Local Open Scope string_scope.
Local Open Scope list_scope.

(** ** JavaScript values shared by the three files *)

(** A value that may be [undefined] or [null], as the optional fields of a
    response are. *)
Inductive nullable (A : Type) : Type :=
| undefined
| null
| value (a : A).
Arguments undefined {A}.
Arguments null {A}.
Arguments value {A} a.

(** [x !== undefined && x !== null] *)
Definition present {A : Type} (x : nullable A) : bool :=
  match x with
  | value _ => true
  | _ => false
  end.

(** JSON-like payloads.  Objects are finite maps from property names. *)
#[warnings="-register-all"]
Inductive JsValue : Type :=
| JUndefined
| JNull
| JBool (b : bool)
| JNum (n : Z)
| JStr (s : string)
| JObj (fields : gmap string JsValue).

(** Property read [o[k]]: a missing property reads as [undefined]. *)
Definition js_get (o : gmap string JsValue) (k : string) : JsValue :=
  default JUndefined (o !! k).

(** The HTTP response an axios error may carry. *)
Record ErrorResponse : Type := {
  err_status : Z;
  err_data : JsValue
}.

(** The two enumerations of [./context].

    Modelled from the spec: the declarations of [ApiContextLevel] and
    [ApiKeyLevel] live in [src/api/context.ts], which is not part of the
    sources at hand; the spec gives both the members
    [{WAIT_FOR_INIT, ORGANIZATION, PROJECT, ENVIRONMENT}]. *)
Inductive ApiContextLevel : Type :=
| CTX_WAIT_FOR_INIT
| ORGANIZATION
| PROJECT
| ENVIRONMENT.

Inductive ApiKeyLevel : Type :=
| KEY_WAIT_FOR_INIT
| ORGANIZATION_LEVEL_API_KEY
| PROJECT_LEVEL_API_KEY
| ENVIRONMENT_LEVEL_API_KEY.

#[global] Instance ApiContextLevel_eq_dec : EqDecision ApiContextLevel.
Proof. solve_decision. Defined.

#[global] Instance ApiKeyLevel_eq_dec : EqDecision ApiKeyLevel.
Proof. solve_decision. Defined.

(** Template literals are kept as the list of their pieces, so that no
    number or object has to be rendered to text. *)
Inductive Part : Type :=
| Lit (s : string)
| Status (st : nullable Z)
| Stringify (d : nullable JsValue)
| KeyLevel (l : ApiKeyLevel)
| ContextLevelName (l : ApiContextLevel).

Definition Template : Type := list Part.

(** What a [throw] can carry. *)
Inductive JsError : Type :=
| PermitContextError (message : Template)
| AxiosError (response : option ErrorResponse)
| OtherError (message : string).

(** [axios.isAxiosError(err)] *)
Definition isAxiosError (err : JsError) : bool :=
  match err with
  | AxiosError _ => true
  | _ => false
  end.

Definition isPermitContextError (err : JsError) : bool :=
  match err with
  | PermitContextError _ => true
  | _ => false
  end.

(** [err?.response?.status] and [err?.response?.data] *)
Definition response_status (err : JsError) : nullable Z :=
  match err with
  | AxiosError (Some r) => value (err_status r)
  | _ => undefined
  end.

Definition response_data (err : JsError) : nullable JsValue :=
  match err with
  | AxiosError (Some r) => value (err_data r)
  | _ => undefined
  end.

(** The winston logger, as the list of lines written so far (oldest first). *)
Inductive LogLevel : Type := debug | info | error.

Record LogLine : Type := {
  log_level : LogLevel;
  log_message : Template
}.

(** How a call completes. *)
Inductive Completion (A : Type) : Type :=
| Normal (a : A)
| Throw (e : JsError).
Arguments Normal {A} a.
Arguments Throw {A} e.

Definition throws {A : Type} (c : Completion A) : bool :=
  match c with
  | Throw _ => true
  | Normal _ => false
  end.

Definition throwsContextError {A : Type} (c : Completion A) : bool :=
  match c with
  | Throw e => isPermitContextError e
  | Normal _ => false
  end.

(** ** [src/api/base.ts] *)

Module Base.

(** *** The API context ([this.config.apiContext]) *)

(** Modelled from the spec: [ApiContextLevel] is a numeric enumeration of
    [src/api/context.ts] (absent); its members are numbered in the order
    the spec lists them, which is also the order
    ORGANIZATION < PROJECT < ENVIRONMENT the spec fixes. *)
Definition contextLevelValue (l : ApiContextLevel) : Z :=
  match l with
  | CTX_WAIT_FOR_INIT => 0
  | ORGANIZATION => 1
  | PROJECT => 2
  | ENVIRONMENT => 3
  end.

(** Modelled from the spec: the table [API_ACCESS_LEVELS] of
    [src/api/context.ts] (absent), holding the three access levels in the
    fixed order ORGANIZATION < PROJECT < ENVIRONMENT of the spec. *)
Definition API_ACCESS_LEVELS : list ApiKeyLevel :=
  [ORGANIZATION_LEVEL_API_KEY; PROJECT_LEVEL_API_KEY; ENVIRONMENT_LEVEL_API_KEY].

(** [Array.prototype.indexOf]: the first position of [x], or [-1]. *)
Fixpoint indexOf_from (i : Z) (l : list ApiKeyLevel) (x : ApiKeyLevel) : Z :=
  match l with
  | [] => -1
  | y :: l' => if decide (y = x) then i else indexOf_from (i + 1) l' x
  end.

Definition indexOf (l : list ApiKeyLevel) (x : ApiKeyLevel) : Z :=
  indexOf_from 0 l x.

(** Modelled from the spec: the class [ApiContext] of
    [src/api/context.ts] (absent).  The spec gives it the scope level, the
    permitted access level and the organization / project / environment
    identifiers once known; both levels start at WAIT_FOR_INIT. *)
Record ApiContext : Type := {
  contextLevel : ApiContextLevel;
  permittedAccessLevel : ApiKeyLevel;
  organization : nullable string;
  project : nullable string;
  environment : nullable string;
  permittedOrganization : nullable string;
  permittedProject : nullable string;
  permittedEnvironment : nullable string
}.

Definition newApiContext : ApiContext :=
  {| contextLevel := CTX_WAIT_FOR_INIT;
     permittedAccessLevel := KEY_WAIT_FOR_INIT;
     organization := null; project := null; environment := null;
     permittedOrganization := null; permittedProject := null;
     permittedEnvironment := null |}.

(** Modelled from the spec: [ApiContext._saveApiKeyAccessibleScope]
    (absent).  It records the scope the key may act upon and the
    granularity at which the key is authorized. *)
Definition _saveApiKeyAccessibleScope
    (org : string) (proj env : nullable string) (c : ApiContext) : ApiContext :=
  {| contextLevel := contextLevel c;
     permittedAccessLevel :=
       if present proj
       then (if present env then ENVIRONMENT_LEVEL_API_KEY
             else PROJECT_LEVEL_API_KEY)
       else ORGANIZATION_LEVEL_API_KEY;
     organization := organization c;
     project := project c;
     environment := environment c;
     permittedOrganization := value org;
     permittedProject := proj;
     permittedEnvironment := env |}.

(** Modelled from the spec: the three context setters of [ApiContext]
    (absent); each sets the scope level its name says and the identifiers
    of that scope. *)
Definition setOrganizationLevelContext (org : string) (c : ApiContext) : ApiContext :=
  {| contextLevel := ORGANIZATION;
     permittedAccessLevel := permittedAccessLevel c;
     organization := value org; project := null; environment := null;
     permittedOrganization := permittedOrganization c;
     permittedProject := permittedProject c;
     permittedEnvironment := permittedEnvironment c |}.

Definition setProjectLevelContext (org proj : string) (c : ApiContext) : ApiContext :=
  {| contextLevel := PROJECT;
     permittedAccessLevel := permittedAccessLevel c;
     organization := value org; project := value proj; environment := null;
     permittedOrganization := permittedOrganization c;
     permittedProject := permittedProject c;
     permittedEnvironment := permittedEnvironment c |}.

Definition setEnvironmentLevelContext (org proj env : string) (c : ApiContext) : ApiContext :=
  {| contextLevel := ENVIRONMENT;
     permittedAccessLevel := permittedAccessLevel c;
     organization := value org; project := value proj; environment := value env;
     permittedOrganization := permittedOrganization c;
     permittedProject := permittedProject c;
     permittedEnvironment := permittedEnvironment c |}.

(** *** The remote scope endpoint *)

(** [response.data] of [getApiKeyScope()]. *)
Record ApiKeyScope : Type := {
  organization_id : nullable string;
  project_id : nullable string;
  environment_id : nullable string
}.

(** The remote side: what the [n]-th request sent to the scope endpoint is
    answered with, a response or a rejection. *)
Definition ScopeApi : Type := nat -> Completion ApiKeyScope.

(** *** The state a [BasePermitApi] object works on *)

Record World : Type := {
  apiContext : ApiContext;
  requests : nat;          (* scope requests sent so far *)
  logger : list LogLine
}.

Definition newWorld : World :=
  {| apiContext := newApiContext; requests := 0%nat; logger := [] |}.

(** Computations that read and write the world and may throw. *)
Definition M (A : Type) : Type := World -> Completion A * World.

#[global] Instance M_ret : MRet M :=
  fun A (a : A) w => (Normal a, w).

#[global] Instance M_bind : MBind M :=
  fun A B (k : A -> M B) (m : M A) w =>
    match m w with
    | (Normal a, w') => k a w'
    | (Throw e, w') => (Throw e, w')
    end.

Definition throw {A : Type} (e : JsError) : M A := fun w => (Throw e, w).

(** [try { m } catch (err) { h err }] *)
Definition try_catch {A : Type} (m : M A) (h : JsError -> M A) : M A :=
  fun w =>
    match m w with
    | (Normal a, w') => (Normal a, w')
    | (Throw e, w') => h e w'
    end.

Definition log (lvl : LogLevel) (msg : Template) : M unit :=
  fun w =>
    (Normal tt,
     {| apiContext := apiContext w;
        requests := requests w;
        logger := logger w ++ [{| log_level := lvl; log_message := msg |}] |}).

Definition updateContext (f : ApiContext -> ApiContext) : M unit :=
  fun w =>
    (Normal tt,
     {| apiContext := f (apiContext w);
        requests := requests w;
        logger := logger w |}).

Definition getContext : M ApiContext := fun w => (Normal (apiContext w), w).

(** *** [BasePermitApi] *)

Section BasePermitApi.

(** [this.scopeApi], seen from the caller. *)
Variable scopeApi : ScopeApi.

(** [this.scopeApi.getApiKeyScope()] issues one request and is then awaited:
    the request is counted when the call is made, the answer is the
    remote's. *)
Definition sendScopeRequest : M nat :=
  fun w =>
    (Normal (requests w),
     {| apiContext := apiContext w;
        requests := S (requests w);
        logger := logger w |}).

Definition awaitScopeResponse (n : nat) : M ApiKeyScope :=
  fun w => (scopeApi n, w).

Definition getApiKeyScope : M ApiKeyScope :=
  n ← sendScopeRequest; awaitScopeResponse n.

(** Lines 55-89 of [setContextFromApiKey]: what is done with the response. *)
Definition applyScope (data : ApiKeyScope) : M unit :=
  match organization_id data with
  | value org =>
      updateContext
        (_saveApiKeyAccessibleScope org (project_id data) (environment_id data));;
      match project_id data with
      | value proj =>
          match environment_id data with
          | value env =>
              log debug [Lit "setting: environment-level api context"];;
              updateContext (setEnvironmentLevelContext org proj env)
          | _ =>
              log debug [Lit "setting: project-level api context"];;
              updateContext (setProjectLevelContext org proj)
          end
      | _ =>
          log debug [Lit "setting: organization-level api context"];;
          updateContext (setOrganizationLevelContext org)
      end
  | _ => throw (PermitContextError [Lit "could not set api context level"])
  end.

(** Lines 90-101: the [catch] block. *)
Definition onScopeError (err : JsError) : M unit :=
  (if isAxiosError err
   then log error [Lit "["; Status (response_status err);
                   Lit "] permit.api.getApiKeyScope(), err: ";
                   Stringify (response_data err)]
   else mret tt);;
  throw (PermitContextError
           [Lit "could not fetch the api key scope in order to set the api context level"]).

Definition setContextFromApiKey : M unit :=
  try_catch
    (log debug [Lit "Fetching api key scope"];;
     response ← getApiKeyScope;
     applyScope response)
    onScopeError.

(** The test both guards start with (lines 112-115 and 139-142). *)
Definition waitForInit (c : ApiContext) : bool :=
  bool_decide (contextLevel c = CTX_WAIT_FOR_INIT)
  || bool_decide (permittedAccessLevel c = KEY_WAIT_FOR_INIT).

(** Lines 119-129. *)
Definition checkAccessLevel (requiredAccessLevel : ApiKeyLevel) : M unit :=
  c ← getContext;
  if bool_decide (requiredAccessLevel <> permittedAccessLevel c) then
    if (indexOf API_ACCESS_LEVELS requiredAccessLevel
        <? indexOf API_ACCESS_LEVELS (permittedAccessLevel c))%Z
    then throw (PermitContextError
           [Lit "You're trying to use an SDK method that requires an API Key with access level: ";
            KeyLevel requiredAccessLevel; Lit ", ";
            Lit "however the SDK is running with an API key with level ";
            KeyLevel (permittedAccessLevel c); Lit "."])
    else mret tt
  else mret tt.

Definition ensureAccessLevel (requiredAccessLevel : ApiKeyLevel) : M unit :=
  c ← getContext;
  (if waitForInit c then setContextFromApiKey else mret tt);;
  checkAccessLevel requiredAccessLevel.

(** Lines 146-156. *)
Definition checkContext (requiredContext : ApiContextLevel) : M unit :=
  c ← getContext;
  if (contextLevelValue (contextLevel c) <? contextLevelValue requiredContext)%Z
     || bool_decide (contextLevel c = CTX_WAIT_FOR_INIT)
  then throw (PermitContextError
         [Lit "You're trying to use an SDK method that requires an API context of ";
          ContextLevelName requiredContext; Lit ", ";
          Lit "however the SDK is running in a less specific context level: ";
          ContextLevelName (contextLevel c); Lit "."])
  else mret tt.

Definition ensureContext (requiredContext : ApiContextLevel) : M unit :=
  c ← getContext;
  (if waitForInit c then setContextFromApiKey else mret tt);;
  checkContext requiredContext.

(** The two guards under one name. *)
Inductive Guard : Type :=
| AccessLevel (requiredAccessLevel : ApiKeyLevel)
| Context (requiredContext : ApiContextLevel).

Definition callGuard (g : Guard) : M unit :=
  match g with
  | AccessLevel required => ensureAccessLevel required
  | Context required => ensureContext required
  end.

(** Guards called one after the other, each awaited before the next. *)
Fixpoint runGuards (gs : list Guard) (w : World) : World :=
  match gs with
  | [] => w
  | g :: gs' => runGuards gs' (snd (callGuard g w))
  end.

(** A lookup resolves the scope when it is answered and the answer names
    an organization. *)
Definition resolves (r : Completion ApiKeyScope) : bool :=
  match r with
  | Normal data => present (organization_id data)
  | Throw _ => false
  end.

(** Among the requests sent so far, those that resolved the scope. *)
Definition successfulLookups (w : World) : nat :=
  length (List.filter (fun n => resolves (scopeApi n)) (seq 0 (requests w))).

(** While the scope is awaited no lookup has resolved it; afterwards exactly
    the resolving one has. *)
Definition lookupInvariant (w : World) : Prop :=
  if waitForInit (apiContext w)
  then successfulLookups w = 0%nat
  else (successfulLookups w <= 1)%nat.

(** *** Callers in flight at the same time

    An [async] method runs until it reaches an [await] and is resumed by
    a later turn of the event loop.  A guard has two such points: the
    [await] of [getApiKeyScope()] inside [setContextFromApiKey], and the
    [await] of [setContextFromApiKey()] in the guard itself. *)

Inductive Task : Type :=
| AwaitingScope (g : Guard) (n : nat)
    (* inside setContextFromApiKey, request [n] not answered yet *)
| AwaitingContext (g : Guard) (c : Completion unit)
    (* setContextFromApiKey has settled with [c], the guard not resumed *)
| Settled (c : Completion unit).

(** What the guard does once [setContextFromApiKey] is behind it. *)
Definition checkGuard (g : Guard) : M unit :=
  match g with
  | AccessLevel required => checkAccessLevel required
  | Context required => checkContext required
  end.

(** The call itself: everything up to the first [await]. *)
Definition startGuard (g : Guard) (w : World) : Task * World :=
  if waitForInit (apiContext w) then
    match (log debug [Lit "Fetching api key scope"];; sendScopeRequest) w with
    | (Normal n, w') => (AwaitingScope g n, w')
    | (Throw e, w') => (Settled (Throw e), w')
    end
  else
    let '(c, w') := checkGuard g w in (Settled c, w').

(** The answer to request [n] arrives: the rest of [setContextFromApiKey]. *)
Definition deliverScope (n : nat) : M unit :=
  try_catch (response ← awaitScopeResponse n; applyScope response) onScopeError.

(** The guard is resumed after [await this.setContextFromApiKey()]. *)
Definition resumeGuard (g : Guard) (c : Completion unit) : M unit :=
  match c with
  | Normal _ => checkGuard g
  | Throw e => throw e
  end.

Inductive Event : Type :=
| Call (g : Guard)       (* a caller invokes a guard *)
| Deliver (i : nat)      (* the request of task [i] is answered *)
| Resume (i : nat).      (* task [i] continues after setContextFromApiKey *)

Definition step (ev : Event) (st : World * list Task) : World * list Task :=
  let '(w, tasks) := st in
  match ev with
  | Call g =>
      let '(t, w') := startGuard g w in (w', tasks ++ [t])
  | Deliver i =>
      match tasks !! i with
      | Some (AwaitingScope g n) =>
          let '(c, w') := deliverScope n w in
          (w', <[i := AwaitingContext g c]> tasks)
      | _ => st
      end
  | Resume i =>
      match tasks !! i with
      | Some (AwaitingContext g c) =>
          let '(c', w') := resumeGuard g c w in
          (w', <[i := Settled c']> tasks)
      | _ => st
      end
  end.

Definition isCall (ev : Event) : bool :=
  match ev with
  | Call _ => true
  | _ => false
  end.

Definition schedule (evs : list Event) (st : World * list Task) : World * list Task :=
  fold_left (fun st ev => step ev st) evs st.

End BasePermitApi.

(** A context whose permitted access level is known whenever its context
    level is: [setContextFromApiKey] saves the accessible scope before it
    sets any context level. *)
Definition scopeSavedFirst (c : ApiContext) : Prop :=
  permittedAccessLevel c = KEY_WAIT_FOR_INIT -> contextLevel c = CTX_WAIT_FOR_INIT.

(** The length of the longest prefix of [ids] whose members are all present. *)
Fixpoint presentPrefix (ids : list (nullable string)) : nat :=
  match ids with
  | value _ :: ids' => S (presentPrefix ids')
  | _ => 0%nat
  end.

(** The context a resolving answer leaves behind (lines 55-87). *)
Definition resolvedContext (data : ApiKeyScope) (org : string) (c : ApiContext)
    : ApiContext :=
  let c' := _saveApiKeyAccessibleScope org (project_id data) (environment_id data) c in
  match project_id data with
  | value proj =>
      match environment_id data with
      | value env => setEnvironmentLevelContext org proj env c'
      | _ => setProjectLevelContext org proj c'
      end
  | _ => setOrganizationLevelContext org c'
  end.

(** [a] is coarser-grained than [b]: it comes earlier in [API_ACCESS_LEVELS]
    (a level the table does not hold has position [-1]). *)
Definition coarser (a b : ApiKeyLevel) : bool :=
  (indexOf API_ACCESS_LEVELS a <? indexOf API_ACCESS_LEVELS b)%Z.

(** [a] is a less specific context level than [b] (the JavaScript [a < b]
    on the numeric enumeration). *)
Definition lessSpecific (a b : ApiContextLevel) : bool :=
  (contextLevelValue a <? contextLevelValue b)%Z.

(** A guard called on [w] needs the scope and the lookup does not give it. *)
Definition resolutionFails (scopeApi : ScopeApi) (w : World) : bool :=
  waitForInit (apiContext w) && negb (resolves (scopeApi (requests w))).

Definition organizationScope : ApiKeyScope :=
  {| organization_id := value "org"; project_id := undefined; environment_id := undefined |}.

Definition environmentScope : ApiKeyScope :=
  {| organization_id := value "org"; project_id := value "proj";
     environment_id := value "env" |}.

Definition environmentOnlyScope : ApiKeyScope :=
  {| organization_id := value "org"; project_id := null;
     environment_id := value "env" |}.

(** A remote that is down, and remotes that answer every request alike. *)
Definition unreachable : ScopeApi := fun _ => Throw (AxiosError None).

Definition answering (data : ApiKeyScope) : ScopeApi := fun _ => Normal data.

(** The message every failed resolution ends with (lines 98-100). *)
Definition scopeErrorMessage : Template :=
  [Lit "could not fetch the api key scope in order to set the api context level"].

End Base.

(** ** [src/index.ts] *)

Module Index.

(** *** Node's [EventEmitter], as far as [init] and its client use it *)

(** A listener is a callback; only its identity matters here. *)
Definition Listener : Type := nat.

Record Registration : Type := {
  eventName : string;
  listener : Listener;
  onceOnly : bool
}.

Record Invocation : Type := {
  invokedFor : string;
  invokedListener : Listener
}.

Record EventEmitter : Type := {
  registered : list Registration;     (* in registration order *)
  emitted : list (string * nat);      (* each emit: the event, the listeners it called *)
  invocations : list Invocation       (* each listener call, oldest first *)
}.

(** [new EventEmitter()] *)
Definition newEventEmitter : EventEmitter :=
  {| registered := []; emitted := []; invocations := [] |}.

Definition listensTo (event : string) (r : Registration) : bool :=
  bool_decide (eventName r = event).

(** [emitter.emit(event)]: calls, in order, the listeners registered for
    [event] at that moment, drops those added with [once], and tells
    whether there was any. *)
Definition emit (event : string) (e : EventEmitter) : bool * EventEmitter :=
  let called := List.filter (listensTo event) (registered e) in
  (negb (Nat.eqb (length called) 0),
   {| registered :=
        List.filter (fun r => negb (listensTo event r && onceOnly r)) (registered e);
      emitted := emitted e ++ [(event, length called)];
      invocations :=
        invocations e
        ++ map (fun r => {| invokedFor := event; invokedListener := listener r |}) called |}).

(** [emitter.on] and [emitter.once]: the emitter first emits 'newListener'
    when somebody listens to that, then appends the listener. *)
Definition addListener (event : string) (l : Listener) (once : bool)
    (e : EventEmitter) : EventEmitter :=
  let e' :=
    if existsb (listensTo "newListener") (registered e)
    then snd (emit "newListener" e)
    else e in
  {| registered :=
       registered e' ++ [{| eventName := event; listener := l; onceOnly := once |}];
     emitted := emitted e';
     invocations := invocations e' |}.

Definition on (event : string) (l : Listener) : EventEmitter -> EventEmitter :=
  addListener event l false.

Definition once (event : string) (l : Listener) : EventEmitter -> EventEmitter :=
  addListener event l true.

(** *** [AuthorizonSDK.init] *)

Record IAuthorizonConfig : Type := {
  sidecarUrl : string;
  autoMapping_enable : bool
}.

(** The part of [IAuthorizonClient] that is [IEventSubscriber]: [on] and
    [once], both bound to the emitter [init] created. *)
Record IAuthorizonClient : Type := {
  events : EventEmitter
}.

(** [init]: the registry, reporter, enforcer, cache, mutations client and
    app manager are built from the configuration and none of them is handed
    [events]; the emitter is created, 'ready' is emitted, and the client is
    returned with [on] / [once] bound to it.  Both revisions of the file do
    these three things in this order. *)
Definition init (config : IAuthorizonConfig) : IAuthorizonClient :=
  let events := newEventEmitter in
  let '(_, events) := emit "ready" events in
  {| events := events |}.

(** What a holder of the client can do with the emitter. *)
Inductive Subscription : Type :=
| On (event : string) (l : Listener)
| Once (event : string) (l : Listener).

Definition subscribe (s : Subscription) (client : IAuthorizonClient) : IAuthorizonClient :=
  match s with
  | On event l => {| events := on event l (events client) |}
  | Once event l => {| events := once event l (events client) |}
  end.

Definition subscribeAll (subs : list Subscription) (client : IAuthorizonClient)
    : IAuthorizonClient :=
  fold_left (fun c s => subscribe s c) subs client.

Definition subscribedEvent (s : Subscription) : string :=
  match s with
  | On event _ => event
  | Once event _ => event
  end.

(** What holds of the emitter from [init] on: 'ready' was emitted first and
    called nobody, every later emission is the emitter's own 'newListener',
    and so is every listener call. *)
Definition readyWasMissed (e : EventEmitter) : Prop :=
  (exists later, emitted e = ("ready", 0%nat) :: later
                 /\ Forall (fun em => fst em = "newListener") later)
  /\ Forall (fun inv => invokedFor inv = "newListener") (invocations e).

(** Without a listener for 'newListener' the emitter calls nobody at all. *)
Definition silent (e : EventEmitter) : Prop :=
  existsb (listensTo "newListener") (registered e) = false
  /\ invocations e = [].

End Index.

(** ** The elements client ([ElementsClient]) *)

Module Elements.

(** [response] of [authApi.elementsLoginAs]: the status and the body, an
    [EmbeddedLoginRequestOutput] object. *)
Record AxiosResponse : Type := {
  status : Z;
  data : gmap string JsValue
}.

(** [this.authApi.elementsLoginAs({userLoginRequestInput: {user_id, tenant_id}})] *)
Definition AuthenticationApi : Type := string -> string -> Completion AxiosResponse.

(** Computations that write to the logger and may throw. *)
Definition L (A : Type) : Type := list LogLine -> Completion A * list LogLine.

Definition logLine (lvl : LogLevel) (msg : Template) : L unit :=
  fun lg => (Normal tt, lg ++ [{| log_level := lvl; log_message := msg |}]).

Section ElementsClient.

Variable authApi : AuthenticationApi.

(** [res] is [response.data] itself, so the assignment to [res['content']]
    writes into the body; the object returned is that body. *)
Definition loginAs (userId tenantId : string) : L (gmap string JsValue) :=
  fun lg =>
    match authApi userId tenantId with
    | Normal response =>
        let '(_, lg) :=
          logLine debug [Lit "["; Status (value (status response));
                         Lit "] permit.api.loginAs("; Lit userId; Lit ")"] lg in
        let res := data response in
        let res :=
          <["content" := JObj {["url" := js_get (data response) "redirect_url"]}]> res in
        (Normal res, lg)
    | Throw err =>
        let lg :=
          if isAxiosError err
          then snd (logLine error [Lit "["; Status (response_status err);
                                   Lit "] permit.api.loginAs("; Lit userId;
                                   Lit "), err: "; Stringify (response_data err)] lg)
          else lg in
        (Throw err, lg)
    end.

End ElementsClient.

(** A remote whose every login call is rejected with [e]. *)
Definition failingWith (e : JsError) : AuthenticationApi := fun _ _ => Throw e.

(** A remote that answers every login with the same redirect. *)
Definition redirectResponse (target : string) : AxiosResponse :=
  {| status := 200; data := {["redirect_url" := JStr target]} |}.

Definition redirecting (target : string) : AuthenticationApi :=
  fun _ _ => Normal (redirectResponse target).

End Elements.

(** ** [src/api/base.ts]: [PermitApiError] and [handleApiError] *)

Module ApiErrors.

(** Anything [handleApiError] can be handed or can throw: a
    [PermitApiError] with its message and the error it wraps, or any other
    thrown value. *)
Inductive Thrown : Type :=
| PermitApiError (message : Template) (originalError : JsError)
| Other (err : JsError).

(** [axios.isAxiosError] on an arbitrary thrown value; a [PermitApiError]
    is an [Error] without the axios mark. *)
Definition isAxios (t : Thrown) : bool :=
  match t with
  | Other err => isAxiosError err
  | PermitApiError _ _ => false
  end.

(** The getter [response] of [PermitApiError]: [this.originalError.response]. *)
Definition response (t : Thrown) : option ErrorResponse :=
  match t with
  | PermitApiError _ (AxiosError r) => r
  | _ => None
  end.

(** [handleApiError(err): never].  It has no normal completion: the result
    is the value it throws, with the logger it leaves. *)
Definition handleApiError (t : Thrown) (lg : list LogLine) : Thrown * list LogLine :=
  match t with
  | Other err =>
      if isAxiosError err then
        let message := [Lit "Got error status code: "; Status (response_status err)] in
        (PermitApiError message err,
         lg ++ [{| log_level := error;
                   log_message :=
                     message ++ [Lit ", err: "; Stringify (response_data err)] |}])
      else (t, lg)
  | PermitApiError _ _ => (t, lg)
  end.

End ApiErrors.

(** ** [src/mutations/client.ts] *)

Module Mutations.

Inductive HttpVerb : Type := GET | PUT | POST | PATCH | DELETE.

(** One call on the axios instance: [client.get(url)], [client.put(url, data)], ... *)
Record Request : Type := {
  verb : HttpVerb;
  url : string;
  body : option JsValue
}.

Record Response : Type := {
  status : Z;
  data : JsValue
}.

(** [this.client]: how the [n]-th request sent is settled. *)
Definition AxiosInstance : Type := nat -> Request -> Completion Response.

(** The pieces of a logged template literal. *)
Inductive Piece : Type :=
| Text (s : string)
| OptionalText (s : option string)    (* a string that may be [undefined] *)
| Interpolated (v : JsValue)
| Json (v : JsValue)                  (* [JSON.stringify(v)] *)
| OfError (e : JsError).              (* an error turned to text *)

Record Line : Type := {
  level : LogLevel;
  message : list Piece
}.

Record ITenant : Type := {
  key : string;
  name : string;
  description : option string
}.

(** The tenant as the object [JSON.stringify] is given. *)
Definition tenantObject (tenant : ITenant) : JsValue :=
  let o : gmap string JsValue :=
    <["name" := JStr (name tenant)]> (<["key" := JStr (key tenant)]> ∅) in
  JObj match description tenant with
       | Some d => <["description" := JStr d]> o
       | None => o
       end.

(** [if (s)] on an optional string: defined and not empty. *)
Definition truthy (s : option string) : bool :=
  match s with
  | Some d => negb (String.eqb d "")
  | None => false
  end.

Record World : Type := {
  sent : list Request;       (* the requests made so far, oldest first *)
  logger : list Line
}.

Definition M (A : Type) : Type := World -> Completion A * World.

#[global] Instance M_ret : MRet M :=
  fun A (a : A) w => (Normal a, w).

#[global] Instance M_bind : MBind M :=
  fun A B (k : A -> M B) (m : M A) w =>
    match m w with
    | (Normal a, w') => k a w'
    | (Throw e, w') => (Throw e, w')
    end.

Definition throw {A : Type} (e : JsError) : M A := fun w => (Throw e, w).

(** [promise.then(f)] *)
Definition promise_then {A B : Type} (p : M A) (f : A -> B) : M B :=
  fun w =>
    match p w with
    | (Normal a, w') => (Normal (f a), w')
    | (Throw e, w') => (Throw e, w')
    end.

(** [promise.catch(h)] *)
Definition promise_catch {A : Type} (p : M A) (h : JsError -> M A) : M A :=
  fun w =>
    match p w with
    | (Normal a, w') => (Normal a, w')
    | (Throw e, w') => h e w'
    end.

Definition logLine (lvl : LogLevel) (msg : list Piece) : M unit :=
  fun w =>
    (Normal tt,
     {| sent := sent w;
        logger := logger w ++ [{| level := lvl; message := msg |}] |}).

(** A client that has made no request, an axios instance that rejects every
    request with [e], and one that answers every request with [response]. *)
Definition newWorld : World := {| sent := []; logger := [] |}.

Definition rejecting (e : JsError) : AxiosInstance := fun _ _ => Throw e.

Definition replying (response : Response) : AxiosInstance := fun _ _ => Normal response.

Section MutationsClient.

Variable debugMode : bool.          (* [this.config.debugMode] *)
Variable client : AxiosInstance.

Definition request (r : Request) : M Response :=
  fun w =>
    (client (length (sent w)) r,
     {| sent := sent w ++ [r]; logger := logger w |}).

(** [if (this.config.debugMode) { this.logger.info(msg) }] *)
Definition debugInfo (msg : list Piece) : M unit :=
  if debugMode then logLine info msg else mret tt.

(** [.catch((error) => { this.logger.error(msg error); throw error; })] *)
Definition logAndRethrow {A : Type} (msg : JsError -> list Piece) (e : JsError) : M A :=
  logLine error (msg e);; throw e.

Definition getUser (userKey : string) : M JsValue :=
  debugInfo [Text "permit.api.getUser("; Text userKey; Text ")"];;
  promise_catch
    (promise_then
       (request {| verb := GET; url := "cloud/users/" +:+ userKey; body := None |})
       data)
    (logAndRethrow (fun e =>
       [Text "tried to get user with key: "; Text userKey;
        Text ", got error: "; OfError e])).

Definition getRole (roleKey : string) : M JsValue :=
  debugInfo [Text "permit.api.getRole("; Text roleKey; Text ")"];;
  promise_catch
    (promise_then
       (request {| verb := GET; url := "cloud/roles/" +:+ roleKey; body := None |})
       data)
    (logAndRethrow (fun e =>
       [Text "tried to get role with id: "; Text roleKey;
        Text ", got error: "; OfError e])).

Definition getTenant (tenantKey : string) : M JsValue :=
  debugInfo [Text "permit.api.getTenant("; Text tenantKey; Text ")"];;
  promise_catch
    (promise_then
       (request {| verb := GET; url := "cloud/tenants/" +:+ tenantKey; body := None |})
       data)
    (logAndRethrow (fun e =>
       [Text "tried to get tenant with id: "; Text tenantKey;
        Text ", got error: "; OfError e])).

Definition getAssignedRoles (userKey : string) (tenantKey : option string) : M JsValue :=
  debugInfo [Text "permit.api.getAssignedRoles(user="; Text userKey;
             Text ", tenant="; OptionalText tenantKey; Text ")"];;
  let url := "cloud/role_assignments?user=" +:+ userKey in
  let url :=
    match tenantKey with
    | Some t => url +:+ ("&tenant=" +:+ t)
    | None => url
    end in
  promise_catch
    (promise_then (request {| verb := GET; url := url; body := None |}) data)
    (logAndRethrow (fun e =>
       [Text "could not get user roles for user "; Text userKey;
        Text ", got error: "; OfError e])).

(** [user] is the [IUser] object as it is passed; [user.key] reads its
    property. *)
Definition syncUser (user : gmap string JsValue) : M JsValue :=
  debugInfo [Text "permit.api.syncUser("; Json (JObj user); Text ")"];;
  promise_catch
    (promise_then
       (request {| verb := PUT; url := "cloud/users"; body := Some (JObj user) |})
       data)
    (logAndRethrow (fun e =>
       [Text "tried to sync user with key: "; Interpolated (js_get user "key");
        Text ", got error: "; OfError e])).

Definition deleteUser (userKey : string) : M JsValue :=
  debugInfo [Text "permit.api.deleteUser("; Text userKey; Text ")"];;
  promise_catch
    (promise_then
       (request {| verb := DELETE; url := "cloud/users/" +:+ userKey; body := None |})
       (fun response => JNum (status response)))
    (logAndRethrow (fun e =>
       [Text "tried to delete user with key: "; Text userKey;
        Text ", got error: "; OfError e])).

Definition createTenant (tenant : ITenant) : M JsValue :=
  debugInfo [Text "permit.api.createTenant("; Json (tenantObject tenant); Text ")"];;
  let data_ : gmap string JsValue := ∅ in
  let data_ := <["externalId" := JStr (key tenant)]> data_ in
  let data_ := <["name" := JStr (name tenant)]> data_ in
  let data_ :=
    match description tenant with
    | Some d => if truthy (Some d) then <["description" := JStr d]> data_ else data_
    | None => data_
    end in
  promise_catch
    (promise_then
       (request {| verb := PUT; url := "cloud/tenants"; body := Some (JObj data_) |})
       data)
    (logAndRethrow (fun e =>
       [Text "tried to create tenant with key: "; Text (key tenant);
        Text ", got error: "; OfError e])).

Definition updateTenant (tenant : ITenant) : M JsValue :=
  debugInfo [Text "permit.api.updateTenant("; Json (tenantObject tenant); Text ")"];;
  let data_ : gmap string JsValue := ∅ in
  let data_ := <["name" := JStr (name tenant)]> data_ in
  let data_ :=
    match description tenant with
    | Some d => if truthy (Some d) then <["description" := JStr d]> data_ else data_
    | None => data_
    end in
  promise_catch
    (promise_then
       (request {| verb := PATCH; url := "cloud/tenants/" +:+ key tenant;
                   body := Some (JObj data_) |})
       data)
    (logAndRethrow (fun e =>
       [Text "tried to update tenant with key: "; Text (key tenant);
        Text ", got error: "; OfError e])).

Definition deleteTenant (tenantKey : string) : M JsValue :=
  debugInfo [Text "permit.api.deleteTenant("; Text tenantKey; Text ")"];;
  promise_catch
    (promise_then
       (request {| verb := DELETE; url := "cloud/tenants/" +:+ tenantKey; body := None |})
       (fun response => JNum (status response)))
    (logAndRethrow (fun e =>
       [Text "tried to delete tenant with key: "; Text tenantKey;
        Text ", got error: "; OfError e])).

(** The object [{role, user, scope}] of the two role mutations. *)
Definition roleAssignment (userKey roleKey tenantKey : string) : JsValue :=
  JObj (<["scope" := JStr tenantKey]>
          (<["user" := JStr userKey]> (<["role" := JStr roleKey]> ∅))).

Definition assignRole (userKey roleKey tenantKey : string) : M JsValue :=
  let data_ := roleAssignment userKey roleKey tenantKey in
  debugInfo [Text "permit.api.assignRole("; Json data_; Text ")"];;
  promise_catch
    (promise_then
       (request {| verb := POST; url := "cloud/role_assignments"; body := Some data_ |})
       data)
    (logAndRethrow (fun e =>
       [Text "could not assign role "; Text roleKey; Text " to "; Text userKey;
        Text " in tenant "; Text tenantKey; Text ", got error: "; OfError e])).

Definition unassignRole (userKey roleKey tenantKey : string) : M JsValue :=
  debugInfo [Text "permit.api.assignRole(";
             Json (roleAssignment userKey roleKey tenantKey); Text ")"];;
  promise_catch
    (promise_then
       (request {| verb := DELETE;
                   url := "cloud/role_assignments?role=" +:+ roleKey
                          +:+ "&user=" +:+ userKey +:+ "&scope=" +:+ tenantKey;
                   body := None |})
       data)
    (logAndRethrow (fun e =>
       [Text "could not unassign role "; Text roleKey; Text " of "; Text userKey;
        Text " in tenant "; Text tenantKey; Text ", got error: "; OfError e])).

(** *** The cloud api proxy *)

Record IPermitCloudReads : Type := {
  api_getUser : string -> M JsValue;
  api_getRole : string -> M JsValue;
  api_getTenant : string -> M JsValue;
  api_getAssignedRoles : string -> option string -> M JsValue
}.

Record IPermitCloudMutations : Type := {
  api_syncUser : gmap string JsValue -> M JsValue;
  api_deleteUser : string -> M JsValue;
  api_createTenant : ITenant -> M JsValue;
  api_updateTenant : ITenant -> M JsValue;
  api_deleteTenant : string -> M JsValue;
  api_assignRole : string -> string -> string -> M JsValue;
  api_unassignRole : string -> string -> string -> M JsValue
}.

Definition read {T : Type} (callback : IPermitCloudReads -> M T) : M T :=
  let readProxy :=
    {| api_getUser := getUser;
       api_getRole := getRole;
       api_getTenant := getTenant;
       api_getAssignedRoles := getAssignedRoles |} in
  callback readProxy.

Definition save {T : Type} (callback : IPermitCloudMutations -> M T) : M T :=
  let writeProxy :=
    {| api_syncUser := syncUser;
       api_deleteUser := deleteUser;
       api_createTenant := createTenant;
       api_updateTenant := updateTenant;
       api_deleteTenant := deleteTenant;
       api_assignRole := assignRole;
       api_unassignRole := unassignRole |} in
  callback writeProxy.

(** The eleven methods under one name. *)
Inductive CloudCall : Type :=
| GetUser (userKey : string)
| GetRole (roleKey : string)
| GetTenant (tenantKey : string)
| GetAssignedRoles (userKey : string) (tenantKey : option string)
| SyncUser (user : gmap string JsValue)
| DeleteUser (userKey : string)
| CreateTenant (tenant : ITenant)
| UpdateTenant (tenant : ITenant)
| DeleteTenant (tenantKey : string)
| AssignRole (userKey roleKey tenantKey : string)
| UnassignRole (userKey roleKey tenantKey : string).

Definition invoke (c : CloudCall) : M JsValue :=
  match c with
  | GetUser userKey => read (fun api => api_getUser api userKey)
  | GetRole roleKey => read (fun api => api_getRole api roleKey)
  | GetTenant tenantKey => read (fun api => api_getTenant api tenantKey)
  | GetAssignedRoles userKey tenantKey =>
      read (fun api => api_getAssignedRoles api userKey tenantKey)
  | SyncUser user => save (fun api => api_syncUser api user)
  | DeleteUser userKey => save (fun api => api_deleteUser api userKey)
  | CreateTenant tenant => save (fun api => api_createTenant api tenant)
  | UpdateTenant tenant => save (fun api => api_updateTenant api tenant)
  | DeleteTenant tenantKey => save (fun api => api_deleteTenant api tenantKey)
  | AssignRole userKey roleKey tenantKey =>
      save (fun api => api_assignRole api userKey roleKey tenantKey)
  | UnassignRole userKey roleKey tenantKey =>
      save (fun api => api_unassignRole api userKey roleKey tenantKey)
  end.

End MutationsClient.

End Mutations.

(** * Properties of [src/api/base.ts] *)

Section BaseProperties.

Import Base.

Variable scopeApi : ScopeApi.

(** Unfolds the monadic plumbing of a computation applied to a world. *)
Ltac run_M :=
  unfold callGuard, ensureAccessLevel, ensureContext, setContextFromApiKey,
    getApiKeyScope, sendScopeRequest, awaitScopeResponse, applyScope,
    onScopeError, checkAccessLevel, checkContext, try_catch, throw, log,
    updateContext, getContext, mbind, M_bind, mret, M_ret in *;
  cbn [fst snd apiContext requests logger] in *.

Lemma setContextFromApiKey_requests (w : World) :
  requests (snd (setContextFromApiKey scopeApi w)) = S (requests w).
Proof.
  run_M. destruct (scopeApi (requests w)) as [data|e]; simpl.
  - destruct (organization_id data); simpl; try reflexivity.
    destruct (project_id data); simpl; try reflexivity.
    destruct (environment_id data); reflexivity.
  - destruct (isAxiosError e); reflexivity.
Qed.

Lemma setContextFromApiKey_fails (w : World) :
  resolves (scopeApi (requests w)) = false ->
  fst (setContextFromApiKey scopeApi w) = Throw (PermitContextError scopeErrorMessage)
  /\ apiContext (snd (setContextFromApiKey scopeApi w)) = apiContext w.
Proof.
  unfold resolves. run_M.
  destruct (scopeApi (requests w)) as [data|e]; simpl.
  - destruct (organization_id data); simpl; intros H; try discriminate H; auto.
  - intros _. destruct (isAxiosError e); auto.
Qed.

Lemma setContextFromApiKey_resolves (w : World) (data : ApiKeyScope) (org : string) :
  scopeApi (requests w) = Normal data ->
  organization_id data = value org ->
  fst (setContextFromApiKey scopeApi w) = Normal tt
  /\ apiContext (snd (setContextFromApiKey scopeApi w))
     = resolvedContext data org (apiContext w).
Proof.
  intros Hreply Horg. unfold resolvedContext. run_M.
  rewrite Hreply; simpl. rewrite Horg; simpl.
  destruct (project_id data); simpl; auto.
  destruct (environment_id data); simpl; auto.
Qed.

Lemma resolvedContext_initialised (data : ApiKeyScope) (org : string) (c : ApiContext) :
  waitForInit (resolvedContext data org c) = false.
Proof.
  unfold resolvedContext, waitForInit.
  destruct (project_id data); simpl;
    try destruct (environment_id data); reflexivity.
Qed.

Lemma resolves_inv (r : Completion ApiKeyScope) :
  resolves r = true ->
  exists data org, r = Normal data /\ organization_id data = value org.
Proof.
  destruct r as [data|e]; simpl; [|discriminate].
  destruct (organization_id data) as [| |org] eqn:E; try discriminate.
  intros _. exists data, org. auto.
Qed.

Lemma checkGuard_world (g : Guard) (w : World) :
  snd (checkGuard g w) = w.
Proof.
  destruct g; unfold checkGuard; run_M.
  - destruct (bool_decide _); [destruct (_ <? _)%Z|]; reflexivity.
  - destruct (_ || _); reflexivity.
Qed.

Lemma callGuard_unfold (g : Guard) (w : World) :
  callGuard scopeApi g w =
  if waitForInit (apiContext w) then
    match setContextFromApiKey scopeApi w with
    | (Normal _, w') => checkGuard g w'
    | (Throw e, w') => (Throw e, w')
    end
  else checkGuard g w.
Proof.
  destruct g; unfold callGuard, checkGuard, ensureAccessLevel, ensureContext,
    getContext, mbind, M_bind, mret, M_ret;
    destruct (waitForInit (apiContext w)); try reflexivity;
    destruct (setContextFromApiKey scopeApi w) as [[[]|e] w']; reflexivity.
Qed.

Lemma callGuard_initialised (g : Guard) (w : World) :
  waitForInit (apiContext w) = false ->
  callGuard scopeApi g w = (fst (checkGuard g w), w).
Proof.
  intros H. rewrite callGuard_unfold, H.
  rewrite <- (checkGuard_world g w) at 3. apply surjective_pairing.
Qed.

Lemma callGuard_fails (g : Guard) (w : World) :
  resolutionFails scopeApi w = true ->
  fst (callGuard scopeApi g w) = Throw (PermitContextError scopeErrorMessage)
  /\ apiContext (snd (callGuard scopeApi g w)) = apiContext w
  /\ requests (snd (callGuard scopeApi g w)) = S (requests w).
Proof.
  unfold resolutionFails. intros [Hwait Hres%negb_true_iff]%andb_true_iff.
  rewrite callGuard_unfold, Hwait.
  pose proof (setContextFromApiKey_fails w Hres) as [Hc Hctx].
  pose proof (setContextFromApiKey_requests w) as Hreq.
  destruct (setContextFromApiKey scopeApi w) as [c w']; simpl in *.
  subst c. simpl. auto.
Qed.

Lemma callGuard_resolves (g : Guard) (w : World) :
  waitForInit (apiContext w) = true ->
  resolves (scopeApi (requests w)) = true ->
  waitForInit (apiContext (snd (callGuard scopeApi g w))) = false
  /\ requests (snd (callGuard scopeApi g w)) = S (requests w)
  /\ fst (callGuard scopeApi g w)
     = fst (checkGuard g (snd (setContextFromApiKey scopeApi w))).
Proof.
  intros Hwait (data & org & Hreply & Horg)%resolves_inv.
  rewrite callGuard_unfold, Hwait.
  pose proof (setContextFromApiKey_resolves w data org Hreply Horg) as [Hc Hctx].
  pose proof (setContextFromApiKey_requests w) as Hreq.
  destruct (setContextFromApiKey scopeApi w) as [c w']; simpl in *.
  subst c. rewrite checkGuard_world, Hctx.
  auto using resolvedContext_initialised.
Qed.

Lemma callGuard_waiting_requests (g : Guard) (w : World) :
  waitForInit (apiContext w) = true ->
  requests (snd (callGuard scopeApi g w)) = S (requests w).
Proof.
  intros Hwait. destruct (resolves (scopeApi (requests w))) eqn:Hres.
  - apply callGuard_resolves; assumption.
  - apply callGuard_fails. unfold resolutionFails. rewrite Hwait, Hres. reflexivity.
Qed.

(** When the lookup is not needed or resolves the scope, the outcome of a
    guard is that of its check on the world the guard leaves. *)
Lemma callGuard_check (g : Guard) (w : World) :
  resolutionFails scopeApi w = false ->
  fst (callGuard scopeApi g w) = fst (checkGuard g (snd (callGuard scopeApi g w))).
Proof.
  unfold resolutionFails. intros H.
  destruct (waitForInit (apiContext w)) eqn:Hwait; simpl in H.
  - apply negb_false_iff in H.
    destruct (resolves_inv _ H) as (data & org & Hreply & Horg).
    pose proof (setContextFromApiKey_resolves w data org Hreply Horg) as [Hc _].
    rewrite callGuard_unfold, Hwait.
    destruct (setContextFromApiKey scopeApi w) as [c w']; simpl in Hc; subst c.
    rewrite checkGuard_world. reflexivity.
  - rewrite callGuard_initialised by assumption. reflexivity.
Qed.

Lemma checkAccessLevel_throws (required : ApiKeyLevel) (w : World) :
  throws (fst (checkAccessLevel required w))
  = coarser required (permittedAccessLevel (apiContext w))
  /\ throwsContextError (fst (checkAccessLevel required w))
     = throws (fst (checkAccessLevel required w)).
Proof.
  unfold coarser. run_M. case_bool_decide as Hne.
  - destruct (_ <? _)%Z; auto.
  - rewrite <- Hne, Z.ltb_irrefl. auto.
Qed.

Lemma checkContext_throws (required : ApiContextLevel) (w : World) :
  throws (fst (checkContext required w))
  = lessSpecific (contextLevel (apiContext w)) required
    || bool_decide (contextLevel (apiContext w) = CTX_WAIT_FOR_INIT)
  /\ throwsContextError (fst (checkContext required w))
     = throws (fst (checkContext required w)).
Proof.
  unfold lessSpecific. run_M. destruct (_ || _); auto.
Qed.


(** The context a guard leaves when it had to look the scope up: the one the
    answer resolves to, or the one it found when the lookup does not resolve
    the scope. *)
Lemma callGuard_context (g : Guard) (w : World) :
  waitForInit (apiContext w) = true ->
  apiContext (snd (callGuard scopeApi g w))
  = match scopeApi (requests w) with
    | Normal data =>
        match organization_id data with
        | value org => resolvedContext data org (apiContext w)
        | _ => apiContext w
        end
    | Throw _ => apiContext w
    end.
Proof.
  intros Hwait.
  destruct (resolves (scopeApi (requests w))) eqn:Hres.
  - destruct (resolves_inv _ Hres) as (data & org & Hreply & Horg).
    pose proof (setContextFromApiKey_resolves w data org Hreply Horg) as [Hc Hctx].
    rewrite callGuard_unfold, Hwait, Hreply, Horg.
    destruct (setContextFromApiKey scopeApi w) as [c w']; simpl in Hc, Hctx.
    subst c. rewrite checkGuard_world. exact Hctx.
  - destruct (callGuard_fails g w) as (_ & Hctx & _).
    { unfold resolutionFails. rewrite Hwait, Hres. reflexivity. }
    rewrite Hctx. unfold resolves in Hres.
    destruct (scopeApi (requests w)) as [data|e]; [|reflexivity].
    destruct (organization_id data); [reflexivity..|discriminate Hres].
Qed.

(** C2: on a context whose access level was saved before its level was set,
    [ensureContext(required)] throws, and then a [PermitContextError],
    exactly when the context level after lazy resolution is less specific
    than [required] or is still WAIT_FOR_INIT; otherwise it returns
    normally.  The state after lazy resolution is the state the guard was
    called on when both levels were set; otherwise one lookup has been made
    and the context is the one its answer resolves to, or the unchanged one
    when the lookup is rejected or names no organization. *)
Theorem ensureContext_throws_iff_less_specific
    (required : ApiContextLevel) (w : World) :
  scopeSavedFirst (apiContext w) ->
  let '(c, w') := ensureContext scopeApi required w in
  throws c
  = lessSpecific (contextLevel (apiContext w')) required
    || bool_decide (contextLevel (apiContext w') = CTX_WAIT_FOR_INIT)
  /\ throwsContextError c = throws c
  /\ (waitForInit (apiContext w) = false -> w' = w)
  /\ (waitForInit (apiContext w) = true ->
      requests w' = S (requests w)
      /\ apiContext w'
         = match scopeApi (requests w) with
           | Normal data =>
               match organization_id data with
               | value org => resolvedContext data org (apiContext w)
               | _ => apiContext w
               end
           | Throw _ => apiContext w
           end).
Proof.
  intros Hsaved.
  assert (let '(c, w') := ensureContext scopeApi required w in
          throws c
          = lessSpecific (contextLevel (apiContext w')) required
            || bool_decide (contextLevel (apiContext w') = CTX_WAIT_FOR_INIT)
          /\ throwsContextError c = throws c) as Houtcome.
  { destruct (resolutionFails scopeApi w) eqn:Hfail.
    - destruct (callGuard_fails (Context required) w Hfail) as (Hc & Hctx & _).
      cbn [callGuard] in Hc, Hctx.
      destruct (ensureContext scopeApi required w) as [c w']; simpl in Hc, Hctx.
      subst c. rewrite Hctx.
      assert (contextLevel (apiContext w) = CTX_WAIT_FOR_INIT) as ->.
      { apply andb_true_iff in Hfail as [Hwait _]. unfold waitForInit in Hwait.
        apply orb_true_iff in Hwait as [Hw|Hw]; apply bool_decide_eq_true in Hw; auto. }
      simpl. rewrite orb_true_r. auto.
    - pose proof (callGuard_check (Context required) w Hfail) as Hc.
      cbn [callGuard checkGuard] in Hc.
      destruct (ensureContext scopeApi required w) as [c w']; simpl in Hc.
      subst c. apply checkContext_throws. }
  pose proof (callGuard_initialised (Context required) w) as Hread.
  pose proof (callGuard_waiting_requests (Context required) w) as Hsent.
  pose proof (callGuard_context (Context required) w) as Hctx.
  cbn [callGuard] in Hread, Hsent, Hctx.
  destruct (ensureContext scopeApi required w) as [c w']; cbn [snd] in *.
  destruct Houtcome as [Hthrows Hkind].
  repeat split; auto.
  intros Hinit. specialize (Hread Hinit). congruence.
Qed.

(** [scopeSavedFirst] holds of a new context and every guard keeps it. *)
Lemma scopeSavedFirst_new : scopeSavedFirst newApiContext.
Proof. intros _. reflexivity. Qed.

Lemma scopeSavedFirst_callGuard (g : Guard) (w : World) :
  scopeSavedFirst (apiContext w) ->
  scopeSavedFirst (apiContext (snd (callGuard scopeApi g w))).
Proof.
  intros Hsaved.
  destruct (waitForInit (apiContext w)) eqn:Hwait.
  - destruct (resolves (scopeApi (requests w))) eqn:Hres.
    + destruct (callGuard_resolves g w Hwait Hres) as (Hinit & _).
      unfold waitForInit in Hinit. apply orb_false_iff in Hinit as [_ Hkey].
      apply bool_decide_eq_false in Hkey. intros Hkey'. contradiction.
    + destruct (callGuard_fails g w) as (_ & Hctx & _).
      { unfold resolutionFails. rewrite Hwait, Hres. reflexivity. }
      rewrite Hctx. assumption.
  - rewrite callGuard_initialised by assumption. assumption.
Qed.

(** C3: when the lookup is answered with [data], the resolution routine
    leaves the context at ENVIRONMENT level if organization, project and
    environment identifiers are all present, at PROJECT level if the first
    two are and the environment is not, at ORGANIZATION level if the
    organization is and the project is not, and throws a
    [PermitContextError] if the organization is absent; at ORGANIZATION
    level a following [ensureContext(PROJECT)] throws one too. *)
Theorem setContextFromApiKey_level (w : World) (data : ApiKeyScope) :
  scopeApi (requests w) = Normal data ->
  let '(c, w') := setContextFromApiKey scopeApi w in
  match organization_id data, project_id data, environment_id data with
  | value _, value _, value _ =>
      c = Normal tt /\ contextLevel (apiContext w') = ENVIRONMENT
  | value _, value _, _ =>
      c = Normal tt /\ contextLevel (apiContext w') = PROJECT
  | value _, _, _ =>
      c = Normal tt /\ contextLevel (apiContext w') = ORGANIZATION
      /\ throwsContextError (fst (ensureContext scopeApi PROJECT w')) = true
  | _, _, _ => throwsContextError c = true
  end.
Proof.
  intros Hreply.
  destruct (organization_id data) as [| |org] eqn:Horg.
  1,2: destruct (setContextFromApiKey_fails w) as [Hc _];
    [ unfold resolves; rewrite Hreply, Horg; reflexivity | ];
    destruct (setContextFromApiKey scopeApi w) as [c w']; simpl in Hc; subst c;
    reflexivity.
  destruct (setContextFromApiKey_resolves w data org Hreply Horg) as [Hc Hctx].
  destruct (setContextFromApiKey scopeApi w) as [c w']; simpl in Hc, Hctx.
  subst c.
  assert (contextLevel (apiContext w') = ORGANIZATION ->
          throwsContextError (fst (ensureContext scopeApi PROJECT w')) = true) as Horgl.
  { intros Hlevel.
    change (ensureContext scopeApi PROJECT w')
      with (callGuard scopeApi (Context PROJECT) w').
    rewrite callGuard_initialised
      by (rewrite Hctx; apply resolvedContext_initialised).
    cbn [fst checkGuard].
    destruct (checkContext_throws PROJECT w') as [Hthrows ->].
    rewrite Hthrows, Hlevel. reflexivity. }
  revert Horgl. rewrite Hctx. unfold resolvedContext.
  destruct (project_id data); [| |destruct (environment_id data)]; cbn; auto.
Qed.

(** C9: when the answer names an organization, the context level is the
    length of the longest fully present prefix of organization, project,
    environment; so with no project identifier the level is ORGANIZATION
    whether or not an environment identifier is there. *)
Theorem context_level_is_present_prefix (w : World) (data : ApiKeyScope) :
  scopeApi (requests w) = Normal data ->
  present (organization_id data) = true ->
  let '(c, w') := setContextFromApiKey scopeApi w in
  c = Normal tt
  /\ contextLevelValue (contextLevel (apiContext w'))
     = Z.of_nat (presentPrefix
                   [organization_id data; project_id data; environment_id data])
  /\ (present (project_id data) = false ->
      contextLevel (apiContext w') = ORGANIZATION).
Proof.
  intros Hreply Hpresent.
  destruct (organization_id data) as [| |org] eqn:Horg; try discriminate.
  destruct (setContextFromApiKey_resolves w data org Hreply Horg) as [Hc Hctx].
  destruct (setContextFromApiKey scopeApi w) as [c w']; simpl in Hc, Hctx.
  subst c. rewrite Hctx. unfold resolvedContext.
  destruct (project_id data); [| |destruct (environment_id data)]; cbn;
    repeat split; auto; discriminate.
Qed.

(** C5: when a guard needs the scope and the lookup is rejected, the guard
    throws a [PermitContextError], the API context is left as it was (so
    still waiting for initialisation), and whichever guard is called next
    sends the lookup again. *)
Theorem failed_lookup_is_not_cached (g : Guard) (w : World) (e : JsError) :
  waitForInit (apiContext w) = true ->
  scopeApi (requests w) = Throw e ->
  let '(c, w') := callGuard scopeApi g w in
  c = Throw (PermitContextError scopeErrorMessage)
  /\ apiContext w' = apiContext w
  /\ waitForInit (apiContext w') = true
  /\ requests w' = S (requests w)
  /\ forall g', requests (snd (callGuard scopeApi g' w')) = S (requests w').
Proof.
  intros Hwait Hreply.
  destruct (callGuard_fails g w) as (Hc & Hctx & Hreq).
  { unfold resolutionFails. rewrite Hwait, Hreply. reflexivity. }
  destruct (callGuard scopeApi g w) as [c w']; simpl in Hc, Hctx, Hreq.
  repeat split; auto.
  - rewrite Hctx. assumption.
  - intros g'. apply callGuard_waiting_requests. rewrite Hctx. assumption.
Qed.

(** C8: the resolution routine returns normally when the lookup resolves
    the scope and otherwise, whether the lookup was rejected or answered
    without an organization, throws the [PermitContextError] of its [catch]
    block; whatever a guard throws is a [PermitContextError]. *)
Theorem resolution_errors_are_context_errors (w : World) (g : Guard) :
  fst (setContextFromApiKey scopeApi w)
  = (if resolves (scopeApi (requests w)) then Normal tt
     else Throw (PermitContextError scopeErrorMessage))
  /\ throwsContextError (fst (callGuard scopeApi g w))
     = throws (fst (callGuard scopeApi g w)).
Proof.
  split.
  - destruct (resolves (scopeApi (requests w))) eqn:Hres.
    + destruct (resolves_inv _ Hres) as (data & org & Hreply & Horg).
      apply (setContextFromApiKey_resolves w data org Hreply Horg).
    + apply setContextFromApiKey_fails. assumption.
  - destruct (resolutionFails scopeApi w) eqn:Hfail.
    + destruct (callGuard_fails g w Hfail) as (-> & _). reflexivity.
    + rewrite (callGuard_check g w Hfail).
      destruct g; cbn [checkGuard].
      * apply checkAccessLevel_throws.
      * apply checkContext_throws.
Qed.

Lemma successfulLookups_next (w w' : World) :
  requests w' = S (requests w) ->
  successfulLookups scopeApi w'
  = (successfulLookups scopeApi w
     + if resolves (scopeApi (requests w)) then 1 else 0)%nat.
Proof.
  intros Hreq. unfold successfulLookups. rewrite Hreq, seq_S, List.filter_app.
  rewrite length_app. cbn [List.filter Nat.add].
  destruct (resolves (scopeApi (requests w))); reflexivity.
Qed.

Lemma runGuards_initialised (gs : list Guard) (w : World) :
  waitForInit (apiContext w) = false ->
  runGuards scopeApi gs w = w.
Proof.
  intros Hinit. induction gs as [|g gs IH]; simpl; [reflexivity|].
  rewrite callGuard_initialised by assumption. exact IH.
Qed.

Lemma lookupInvariant_callGuard (g : Guard) (w : World) :
  lookupInvariant scopeApi w -> lookupInvariant scopeApi (snd (callGuard scopeApi g w)).
Proof.
  unfold lookupInvariant. intros Hinv.
  destruct (waitForInit (apiContext w)) eqn:Hwait.
  - destruct (resolves (scopeApi (requests w))) eqn:Hres.
    + destruct (callGuard_resolves g w Hwait Hres) as (-> & Hreq & _).
      rewrite (successfulLookups_next w _ Hreq), Hres, Hinv. reflexivity.
    + destruct (callGuard_fails g w) as (_ & Hctx & Hreq).
      { unfold resolutionFails. rewrite Hwait, Hres. reflexivity. }
      rewrite Hctx, Hwait, (successfulLookups_next w _ Hreq), Hres, Hinv.
      reflexivity.
  - rewrite callGuard_initialised by assumption. cbn [snd].
    rewrite Hwait. assumption.
Qed.

Lemma lookupInvariant_runGuards (gs : list Guard) (w : World) :
  lookupInvariant scopeApi w -> lookupInvariant scopeApi (runGuards scopeApi gs w).
Proof.
  revert w. induction gs as [|g gs IH]; intros w Hinv; simpl; [assumption|].
  apply IH, lookupInvariant_callGuard, Hinv.
Qed.

(** C4: a guard sends a scope lookup only while a level is WAIT_FOR_INIT;
    once a guard has resolved the scope, no guard called after it, in any
    number and order, sends another; and over a whole sequential run from a
    new SDK at most one lookup resolves the scope. *)
Theorem sequential_lookup_at_most_once (w : World) (g : Guard) (gs : list Guard) :
  (waitForInit (apiContext w) = false ->
     requests (snd (callGuard scopeApi g w)) = requests w)
  /\ (waitForInit (apiContext w) = true ->
      resolves (scopeApi (requests w)) = true ->
      requests (runGuards scopeApi gs (snd (callGuard scopeApi g w)))
      = S (requests w))
  /\ (successfulLookups scopeApi (runGuards scopeApi gs newWorld) <= 1)%nat.
Proof.
  repeat split.
  - intros Hinit. rewrite callGuard_initialised by assumption. reflexivity.
  - intros Hwait Hres.
    destruct (callGuard_resolves g w Hwait Hres) as (Hinit & Hreq & _).
    rewrite runGuards_initialised by assumption. exact Hreq.
  - pose proof (lookupInvariant_runGuards gs newWorld) as Hinv.
    unfold lookupInvariant in Hinv at 2.
    destruct (waitForInit (apiContext (runGuards scopeApi gs newWorld)));
      [rewrite Hinv|apply Hinv]; try reflexivity; auto.
Qed.

(** *** Interleaved callers *)

Lemma startGuard_waiting (g : Guard) (w : World) :
  waitForInit (apiContext w) = true ->
  fst (startGuard g w) = AwaitingScope g (requests w)
  /\ apiContext (snd (startGuard g w)) = apiContext w
  /\ requests (snd (startGuard g w)) = S (requests w).
Proof.
  intros Hwait. unfold startGuard. rewrite Hwait. run_M. auto.
Qed.

(** A single caller, run turn by turn, does what the guard does when it is
    awaited on its own. *)
Lemma single_caller_agrees (g : Guard) (w : World) :
  waitForInit (apiContext w) = true ->
  schedule scopeApi [Call g; Deliver 0; Resume 0] (w, [])
  = (snd (callGuard scopeApi g w), [Settled (fst (callGuard scopeApi g w))]).
Proof.
  intros Hwait. rewrite callGuard_unfold, Hwait.
  unfold schedule, step, startGuard, deliverScope, resumeGuard.
  cbn [fold_left]. rewrite Hwait. run_M. cbn.
  destruct (scopeApi (requests w)) as [data|e]; cbn.
  - destruct (organization_id data); cbn; try reflexivity.
    + destruct (project_id data); cbn;
        try destruct (environment_id data); cbn;
        match goal with
        | |- context [checkGuard g ?w0] => destruct (checkGuard g w0); reflexivity
        end.
  - destruct (isAxiosError e); reflexivity.
Qed.

Lemma callers_before_any_answer (gs : list Guard) (w : World) (tasks : list Task) :
  waitForInit (apiContext w) = true ->
  let '(w', tasks') := schedule scopeApi (map Call gs) (w, tasks) in
  requests w' = (requests w + length gs)%nat
  /\ apiContext w' = apiContext w
  /\ tasks' = tasks ++ imap (fun i g => AwaitingScope g (requests w + i)) gs.
Proof.
  revert w tasks. induction gs as [|g gs IH]; intros w tasks Hwait.
  - cbn. rewrite Nat.add_0_r, app_nil_r. auto.
  - cbn [map schedule fold_left step].
    destruct (startGuard_waiting g w Hwait) as (Htask & Hctx & Hreq).
    destruct (startGuard g w) as [t w1]; simpl in Htask, Hctx, Hreq. subst t.
    specialize (IH w1 (tasks ++ [AwaitingScope g (requests w)])).
    unfold schedule in IH.
    destruct (fold_left _ (map Call gs) _) as [w' tasks'].
    destruct IH as (Hreq' & Hctx' & Htasks'); [rewrite Hctx; assumption|].
    repeat split.
    + rewrite Hreq', Hreq. cbn [length]. lia.
    + rewrite Hctx'. assumption.
    + rewrite Htasks', <- app_assoc. cbn [app imap]. rewrite Nat.add_0_r.
      do 2 f_equal. apply imap_ext. intros i x _. cbn. f_equal. lia.
Qed.

Lemma deliverScope_requests (n : nat) (w : World) :
  requests (snd (deliverScope scopeApi n w)) = requests w.
Proof.
  unfold deliverScope. run_M. destruct (scopeApi n) as [data|e]; cbn.
  - destruct (organization_id data); cbn; try reflexivity.
    destruct (project_id data); cbn; try reflexivity.
    destruct (environment_id data); reflexivity.
  - destruct (isAxiosError e); reflexivity.
Qed.

Lemma resumeGuard_requests (g : Guard) (c : Completion unit) (w : World) :
  requests (snd (resumeGuard g c w)) = requests w.
Proof.
  destruct c as [[]|e]; cbn; [|reflexivity].
  rewrite checkGuard_world. reflexivity.
Qed.

(** Only a call sends a request; the later turns of a caller send none. *)
Lemma step_requests (ev : Event) (st : World * list Task) :
  isCall ev = false ->
  requests (fst (step scopeApi ev st)) = requests (fst st).
Proof.
  destruct st as [w tasks], ev as [g|i|i]; cbn; intros Hcall;
    try discriminate Hcall.
  - destruct (tasks !! i) as [[g n|g c|c]|]; try reflexivity.
    pose proof (deliverScope_requests n w) as H.
    destruct (deliverScope scopeApi n w); exact H.
  - destruct (tasks !! i) as [[g n|g c|c]|]; try reflexivity.
    pose proof (resumeGuard_requests g c w) as H.
    destruct (resumeGuard g c w); exact H.
Qed.

Lemma schedule_requests (evs : list Event) (st : World * list Task) :
  forallb (fun ev => negb (isCall ev)) evs = true ->
  requests (fst (schedule scopeApi evs st)) = requests (fst st).
Proof.
  revert st. induction evs as [|ev evs IH]; intros st Hevs; [reflexivity|].
  cbn in Hevs. apply andb_true_iff in Hevs as [Hev%negb_true_iff Hevs].
  change (schedule scopeApi (ev :: evs) st)
    with (schedule scopeApi evs (step scopeApi ev st)).
  rewrite (IH _ Hevs). apply step_requests, Hev.
Qed.

(** C6 (what the code does): each of N callers that calls a guard on a new
    SDK before any lookup is answered sends a lookup of its own, so N
    lookups are sent and caller [i] awaits the answer to request [i]; with
    two callers, two requests have been sent when both have settled. *)
Theorem concurrent_callers_each_send_a_lookup (gs : list Guard) (g1 g2 : Guard) :
  (let '(w, tasks) := schedule scopeApi (map Call gs) (newWorld, []) in
   requests w = length gs
   /\ tasks = imap (fun i g => AwaitingScope g i) gs)
  /\ requests
       (fst (schedule scopeApi
               [Call g1; Call g2; Deliver 0; Deliver 1; Resume 0; Resume 1]
               (newWorld, [])))
     = 2%nat.
Proof.
  split.
  - pose proof (callers_before_any_answer gs newWorld [] eq_refl) as H.
    destruct (schedule scopeApi (map Call gs) (newWorld, [])) as [w tasks].
    destruct H as (Hreq & _ & Htasks). auto.
  - change [Call g1; Call g2; Deliver 0; Deliver 1; Resume 0; Resume 1]
      with (map Call [g1; g2] ++ [Deliver 0; Deliver 1; Resume 0; Resume 1]).
    unfold schedule at 1. rewrite fold_left_app.
    fold (schedule scopeApi (map Call [g1; g2]) (newWorld, [])).
    fold (schedule scopeApi [Deliver 0; Deliver 1; Resume 0; Resume 1]
            (schedule scopeApi (map Call [g1; g2]) (newWorld, []))).
    rewrite schedule_requests by reflexivity.
    pose proof (callers_before_any_answer [g1; g2] newWorld [] eq_refl) as H.
    destruct (schedule scopeApi (map Call [g1; g2]) (newWorld, [])) as [w tasks].
    apply H.
Qed.

End BaseProperties.

(** *** Concrete runs of the guards *)

Section BaseRuns.

Import Base.


(** The other way round it throws: an environment-level key does not pass
    a check for the ORGANIZATION level. *)
Lemma environment_key_fails_organization_check :
  let '(c, w') :=
    ensureAccessLevel (answering environmentScope) ORGANIZATION_LEVEL_API_KEY newWorld in
  permittedAccessLevel (apiContext w') = ENVIRONMENT_LEVEL_API_KEY
  /\ throwsContextError c = true.
Proof. vm_compute. auto. Qed.

Lemma environment_key_passes_environment_check :
  fst (ensureAccessLevel (answering environmentScope) ENVIRONMENT_LEVEL_API_KEY newWorld)
  = Normal tt.
Proof. reflexivity. Qed.


Lemma ensureContext_throws_iff_less_specific_witness :
  scopeSavedFirst (apiContext newWorld)
  /\ (let '(c, w') := ensureContext (answering organizationScope) PROJECT newWorld in
      throws c = true
      /\ throwsContextError c = true
      /\ (waitForInit (apiContext newWorld) = false -> w' = newWorld)
      /\ (waitForInit (apiContext newWorld) = true ->
          requests w' = 1%nat
          /\ apiContext w' = resolvedContext organizationScope "org" newApiContext))
  /\ (let '(c, w') := ensureContext (answering environmentScope) ORGANIZATION newWorld in
      throws c = false
      /\ throwsContextError c = false
      /\ (waitForInit (apiContext newWorld) = false -> w' = newWorld)
      /\ (waitForInit (apiContext newWorld) = true ->
          requests w' = 1%nat
          /\ apiContext w' = resolvedContext environmentScope "org" newApiContext)).
Proof.
  split; [intros _; reflexivity|]. split.
  - apply (ensureContext_throws_iff_less_specific
             (answering organizationScope) PROJECT newWorld).
    intros _. reflexivity.
  - apply (ensureContext_throws_iff_less_specific
             (answering environmentScope) ORGANIZATION newWorld).
    intros _. reflexivity.
Defined.

Lemma setContextFromApiKey_level_witness :
  answering organizationScope (requests newWorld) = Normal organizationScope
  /\ let '(c, w') := setContextFromApiKey (answering organizationScope) newWorld in
     c = Normal tt /\ contextLevel (apiContext w') = ORGANIZATION
     /\ throwsContextError
          (fst (ensureContext (answering organizationScope) PROJECT w')) = true.
Proof.
  split; [reflexivity|].
  apply (setContextFromApiKey_level
           (answering organizationScope) newWorld organizationScope).
  reflexivity.
Defined.

Lemma context_level_is_present_prefix_witness :
  answering environmentOnlyScope (requests newWorld) = Normal environmentOnlyScope
  /\ present (organization_id environmentOnlyScope) = true
  /\ let '(c, w') := setContextFromApiKey (answering environmentOnlyScope) newWorld in
     c = Normal tt
     /\ contextLevelValue (contextLevel (apiContext w')) = 1%Z
     /\ (present (project_id environmentOnlyScope) = false ->
         contextLevel (apiContext w') = ORGANIZATION).
Proof.
  split; [reflexivity|]. split; [reflexivity|].
  apply (context_level_is_present_prefix
           (answering environmentOnlyScope) newWorld environmentOnlyScope);
    reflexivity.
Defined.

Lemma failed_lookup_is_not_cached_witness :
  waitForInit (apiContext newWorld) = true
  /\ unreachable (requests newWorld) = Throw (AxiosError None)
  /\ let '(c, w') := callGuard unreachable (Context ORGANIZATION) newWorld in
     c = Throw (PermitContextError scopeErrorMessage)
     /\ apiContext w' = apiContext newWorld
     /\ waitForInit (apiContext w') = true
     /\ requests w' = S (requests newWorld)
     /\ forall g', requests (snd (callGuard unreachable g' w')) = S (requests w').
Proof.
  split; [reflexivity|]. split; [reflexivity|].
  apply (failed_lookup_is_not_cached
           unreachable (Context ORGANIZATION) newWorld (AxiosError None));
    reflexivity.
Defined.

End BaseRuns.

(** * Properties of [src/index.ts] *)

Section IndexProperties.

Import Index.

Lemma readyWasMissed_init (config : IAuthorizonConfig) :
  readyWasMissed (events (init config)).
Proof.
  split; cbn.
  - exists []. split; [reflexivity|constructor].
  - constructor.
Qed.

Lemma readyWasMissed_emit_newListener (e : EventEmitter) :
  readyWasMissed e -> readyWasMissed (snd (emit "newListener" e)).
Proof.
  intros [(later & Hem & Hlater) Hinv]. split; cbn.
  - exists (later ++ [("newListener", length (List.filter (listensTo "newListener") (registered e)))]).
    rewrite Hem. split; [reflexivity|].
    apply Forall_app. split; [assumption|]. repeat constructor.
  - apply Forall_app. split; [assumption|].
    apply Forall_map, Forall_forall. intros r _. reflexivity.
Qed.

Lemma readyWasMissed_addListener (event : string) (l : Listener) (o : bool)
    (e : EventEmitter) :
  readyWasMissed e -> readyWasMissed (addListener event l o e).
Proof.
  intros H. unfold addListener.
  destruct (existsb (listensTo "newListener") (registered e)).
  - apply readyWasMissed_emit_newListener in H.
    destruct H as [H1 H2]. split; cbn [emitted invocations]; assumption.
  - destruct H as [H1 H2]. split; cbn [emitted invocations]; assumption.
Qed.

Lemma readyWasMissed_subscribeAll (subs : list Subscription) (client : IAuthorizonClient) :
  readyWasMissed (events client) ->
  readyWasMissed (events (subscribeAll subs client)).
Proof.
  revert client. induction subs as [|s subs IH]; intros client H; [assumption|].
  cbn [subscribeAll fold_left]. apply IH.
  destruct s; cbn [subscribe events]; apply readyWasMissed_addListener, H.
Qed.

Lemma silent_addListener (event : string) (l : Listener) (o : bool) (e : EventEmitter) :
  event <> "newListener" -> silent e -> silent (addListener event l o e).
Proof.
  intros Hevent [Hnone Hinv]. unfold addListener. rewrite Hnone.
  split; cbn [registered invocations]; [|assumption].
  rewrite existsb_app, Hnone. cbn. unfold listensTo; cbn.
  rewrite bool_decide_eq_false_2 by assumption. reflexivity.
Qed.

Lemma silent_subscribeAll (subs : list Subscription) (client : IAuthorizonClient) :
  Forall (fun s => subscribedEvent s <> "newListener") subs ->
  silent (events client) ->
  silent (events (subscribeAll subs client)).
Proof.
  revert client. induction subs as [|s subs IH]; intros client Hsubs H;
    [assumption|].
  apply Forall_cons in Hsubs as [Hs Hsubs].
  cbn [subscribeAll fold_left]. apply IH; [assumption|].
  destruct s; cbn [subscribe events]; apply silent_addListener; assumption.
Qed.

(** C7: [init] emits 'ready' on an emitter nobody can have subscribed to
    yet, so the emission calls no listener, and only then returns the
    client; whatever listeners are registered through the client's [on] and
    [once] afterwards, 'ready' is never emitted again and no listener is
    ever called for it (and unless the client listens to the emitter's own
    'newListener' event, no listener is called at all). *)
Theorem ready_fires_before_any_listener
    (config : IAuthorizonConfig) (subs : list Subscription) :
  let client := init config in
  let client' := subscribeAll subs client in
  emitted (events client) = [("ready", 0%nat)]
  /\ registered (events client) = []
  /\ (exists later, emitted (events client') = ("ready", 0%nat) :: later
                    /\ Forall (fun em => fst em <> "ready") later)
  /\ (forall l, ~ In {| invokedFor := "ready"; invokedListener := l |}
                     (invocations (events client')))
  /\ (Forall (fun s => subscribedEvent s <> "newListener") subs ->
      invocations (events client') = []).
Proof.
  cbn zeta.
  destruct (readyWasMissed_subscribeAll subs (init config)
              (readyWasMissed_init config)) as [(later & Hem & Hlater) Hinv].
  repeat split; try reflexivity.
  - exists later. split; [assumption|].
    eapply Forall_impl; [exact Hlater|]. cbn. intros em ->. discriminate.
  - intros l Hin%list_elem_of_In. rewrite Forall_forall in Hinv.
    apply Hinv in Hin. discriminate Hin.
  - intros Hsubs. apply (silent_subscribeAll subs (init config) Hsubs).
    split; reflexivity.
Qed.

End IndexProperties.

(** * Properties of the elements client *)

Section ElementsProperties.

Import Elements.

Variable authApi : AuthenticationApi.

(** C10 (as amended): when the remote call answers, [loginAs] returns the
    body of that answer with its [content] property set to the object
    [{url}] whose [url] is the [redirect_url] of the same body, every other
    property being as the remote sent it; when the remote call throws,
    [loginAs] throws that very error, after logging one error line if it is
    an axios error and without logging anything if it is not. *)
Theorem loginAs_returns_body_with_content
    (userId tenantId : string) (lg : list LogLine) :
  let '(c, lg') := loginAs authApi userId tenantId lg in
  match authApi userId tenantId with
  | Normal response =>
      exists res,
        c = Normal res
        /\ res !! "content"
           = Some (JObj {["url" := js_get (data response) "redirect_url"]})
        /\ forall k, k <> "content" -> res !! k = data response !! k
  | Throw err =>
      c = Throw err
      /\ exists lines,
           lg' = lg ++ lines
           /\ length lines = (if isAxiosError err then 1 else 0)%nat
           /\ Forall (fun line => log_level line = error) lines
  end.
Proof.
  unfold loginAs. destruct (authApi userId tenantId) as [response|err]; cbn.
  - eexists. split; [reflexivity|]. split.
    + apply lookup_insert_eq.
    + intros k Hk. apply lookup_insert_ne. congruence.
  - split; [reflexivity|]. destruct (isAxiosError err); cbn.
    + eexists. split; [reflexivity|]. split; [reflexivity|]. repeat constructor.
    + exists []. rewrite app_nil_r. repeat split. constructor.
Qed.

End ElementsProperties.

Section ElementsRejections.

Import Elements.

(** The claim of C10 read as written fails: a remote call that is rejected
    with an error that is not an axios error is rethrown with nothing
    logged at all. *)
Lemma plain_error_is_rethrown_without_logging :
  isAxiosError (OtherError "boom") = false
  /\ loginAs (failingWith (OtherError "boom")) "user" "tenant" []
     = (Throw (OtherError "boom"), []).
Proof. split; reflexivity. Qed.

End ElementsRejections.

(** * Further properties of [src/api/base.ts]: API errors *)

Section ApiErrorProperties.

Import ApiErrors.

(** X1: an axios error is thrown on as a [PermitApiError] that wraps it:
    the wrapper is not itself an axios error, its [response] getter gives
    the response of the original error, and exactly one line, at error
    level, is added to the log. *)
Theorem handleApiError_wraps_axios_error
    (r : option ErrorResponse) (lg : list LogLine) :
  let '(t, lg') := handleApiError (Other (AxiosError r)) lg in
  response t = r
  /\ isAxios t = false
  /\ (exists message, t = PermitApiError message (AxiosError r))
  /\ exists line, lg' = lg ++ [line] /\ log_level line = error.
Proof.
  cbn. repeat split; eauto.
Qed.

(** X2: handling is idempotent, and a value that is not an axios error is
    thrown on as it is with nothing logged: what [handleApiError] throws,
    handled again, is thrown unchanged and leaves the log alone, so an
    error is wrapped and logged at most once. *)
Theorem handleApiError_wraps_once (t : Thrown) (lg : list LogLine) :
  let '(t', lg') := handleApiError t lg in
  handleApiError t' lg' = (t', lg')
  /\ (isAxios t = false -> t' = t /\ lg' = lg).
Proof.
  destruct t as [message original|err]; cbn.
  - auto.
  - destruct (isAxiosError err) eqn:Haxios; cbn.
    + split; [reflexivity|discriminate].
    + rewrite Haxios. auto.
Qed.

End ApiErrorProperties.

(** * Properties of [src/mutations/client.ts] *)

Section MutationsProperties.

Import Mutations.

Variable debugMode : bool.
Variable client : AxiosInstance.

Ltac run_call :=
  unfold invoke, read, save, getUser, getRole, getTenant, getAssignedRoles,
    syncUser, deleteUser, createTenant, updateTenant, deleteTenant,
    assignRole, unassignRole, debugInfo, logAndRethrow, promise_catch,
    promise_then, request, logLine, throw, mbind, M_bind, mret, M_ret;
  cbn [api_getUser api_getRole api_getTenant api_getAssignedRoles
       api_syncUser api_deleteUser api_createTenant api_updateTenant
       api_deleteTenant api_assignRole api_unassignRole].

Lemma append_empty (s : string) : s +:+ "" = s.
Proof.
  induction s as [|a s IH]; [reflexivity|].
  change (String a (s +:+ "") = String a s). f_equal. exact IH.
Qed.

Lemma append_assoc (s1 s2 s3 : string) :
  (s1 +:+ s2) +:+ s3 = s1 +:+ (s2 +:+ s3).
Proof.
  induction s1 as [|a s1 IH]; [reflexivity|].
  change (String a ((s1 +:+ s2) +:+ s3) = String a (s1 +:+ (s2 +:+ s3))).
  f_equal. exact IH.
Qed.

(** Every call makes exactly one request, whatever it is answered. *)
Lemma invoke_sent (c : CloudCall) (w : World) :
  exists r, sent (snd (invoke debugMode client c w)) = sent w ++ [r]
            /\ fst (invoke debugMode client c w)
               = match client (length (sent w)) r with
                 | Normal response =>
                     Normal match c with
                            | DeleteUser _ | DeleteTenant _ => JNum (status response)
                            | _ => data response
                            end
                 | Throw e => Throw e
                 end.
Proof.
  destruct c; run_call; destruct debugMode; cbn;
    match goal with
    | |- context [client ?n ?r] =>
        exists r; destruct (client n r); cbn; split; reflexivity
    end.
Qed.

(** X3: whichever of the eleven methods is called, and whether or not it
    is answered, it makes exactly one request: the requests made before
    are kept and one is added. *)
Theorem cloud_call_sends_one_request (c : CloudCall) (w : World) :
  exists r, sent (snd (invoke debugMode client c w)) = sent w ++ [r].
Proof.
  destruct (invoke_sent c w) as (r & Hsent & _). eauto.
Qed.

(** X4: when the request a call makes is rejected, the call throws the
    very error of the rejection, after one line at error level that
    carries that error has been logged last. *)
Theorem cloud_call_rethrows_the_error (c : CloudCall) (w : World) (e : JsError) :
  (forall r, client (length (sent w)) r = Throw e) ->
  let '(res, w') := invoke debugMode client c w in
  res = Throw e
  /\ exists earlier msg,
       logger w' = earlier ++ [{| level := error; message := msg |}]
       /\ In (OfError e) msg.
Proof.
  intros Hreject.
  destruct c; run_call; destruct debugMode; cbn; rewrite Hreject; cbn;
    (split; [reflexivity|]); eexists; eexists;
    (split; [reflexivity|]); cbn; tauto.
Qed.

(** X5: what a call adds to the log: one info line first exactly when
    debug mode is on, one error line last exactly when the call throws,
    and nothing else; with debug mode off an answered call logs nothing. *)
Theorem cloud_call_log_lines (c : CloudCall) (w : World) :
  let '(res, w') := invoke debugMode client c w in
  exists lines,
    logger w' = logger w ++ lines
    /\ map level lines
       = (if debugMode then [info] else [])
         ++ (if throws res then [error] else []).
Proof.
  destruct c; run_call; destruct debugMode; cbn;
    match goal with
    | |- context [client ?n ?r] => destruct (client n r); cbn
    end;
    try (eexists; split; [rewrite <- ?app_assoc; reflexivity|reflexivity]);
    exists []; rewrite app_nil_r; split; reflexivity.
Qed.

(** X6: an answered call returns the body of the answer, except
    [deleteUser] and [deleteTenant], which return its status code;
    [unassignRole], a DELETE too, returns the body. *)
Theorem cloud_call_result (c : CloudCall) (w : World) (response : Response) :
  (forall r, client (length (sent w)) r = Normal response) ->
  fst (invoke debugMode client c w)
  = Normal match c with
           | DeleteUser _ | DeleteTenant _ => JNum (status response)
           | _ => data response
           end.
Proof.
  intros Hanswer. destruct (invoke_sent c w) as (r & _ & Hres).
  rewrite Hres, Hanswer. reflexivity.
Qed.

(** X7: [createTenant] puts to [cloud/tenants] an object that carries the
    tenant key as [externalId] (there is no [key] property) and the name;
    the description is carried only when it is a non-empty string, so an
    empty description is left out like a missing one. *)
Theorem createTenant_body (tenant : ITenant) (w : World) :
  exists fields : gmap string JsValue,
    sent (snd (createTenant debugMode client tenant w))
    = sent w ++ [{| verb := PUT; url := "cloud/tenants";
                    body := Some (JObj fields) |}]
    /\ fields !! "externalId" = Some (JStr (key tenant))
    /\ fields !! "name" = Some (JStr (name tenant))
    /\ fields !! "key" = None
    /\ fields !! "description"
       = (if truthy (description tenant) then JStr <$> description tenant
          else None).
Proof.
  run_call. destruct debugMode, (description tenant) as [d|]; cbn;
    try destruct (String.eqb d ""); cbn;
    match goal with
    | |- context [client ?n ?r] => destruct (client n r); cbn
    end;
    (eexists; split; [reflexivity|]); repeat split; reflexivity.
Qed.

(** X8: [updateTenant] patches [cloud/tenants/<key>]: the key goes into
    the URL only, and the object sent has the name, the description when
    it is a non-empty string, and no other property. *)
Theorem updateTenant_body (tenant : ITenant) (w : World) :
  exists fields : gmap string JsValue,
    sent (snd (updateTenant debugMode client tenant w))
    = sent w ++ [{| verb := PATCH; url := "cloud/tenants/" +:+ key tenant;
                    body := Some (JObj fields) |}]
    /\ fields !! "name" = Some (JStr (name tenant))
    /\ fields !! "description"
       = (if truthy (description tenant) then JStr <$> description tenant
          else None)
    /\ forall k, k <> "name" -> k <> "description" -> fields !! k = None.
Proof.
  run_call. destruct debugMode, (description tenant) as [d|]; cbn;
    try destruct (String.eqb d ""); cbn;
    match goal with
    | |- context [client ?n ?r] => destruct (client n r); cbn
    end;
    (eexists; split; [reflexivity|]); repeat split; try reflexivity;
    intros k Hname Hdescription;
    rewrite ?lookup_insert_ne by congruence; apply lookup_empty.
Qed.

(** X9: [getAssignedRoles] asks [cloud/role_assignments?user=<userKey>],
    and that URL exactly when no tenant key is given: a tenant key that is
    given, be it the empty string, is appended as [&tenant=<tenantKey>]. *)
Theorem getAssignedRoles_url (userKey : string) (tenantKey : option string) (w : World) :
  exists r,
    sent (snd (getAssignedRoles debugMode client userKey tenantKey w)) = sent w ++ [r]
    /\ verb r = GET /\ body r = None
    /\ url r = ("cloud/role_assignments?user=" +:+ userKey)
               +:+ match tenantKey with
                   | Some t => "&tenant=" +:+ t
                   | None => ""
                   end
    /\ (url r = "cloud/role_assignments?user=" +:+ userKey <-> tenantKey = None).
Proof.
  run_call. destruct debugMode, tenantKey as [t|]; cbn;
    match goal with
    | |- context [client ?n ?r] => exists r; destruct (client n r); cbn
    end;
    repeat split; try reflexivity; try discriminate;
    try (symmetry; apply append_empty);
    intros H;
    rewrite <- (append_empty ("cloud/role_assignments?user=" +:+ userKey)) in H at 2;
    apply String.app_inj in H; discriminate H.
Qed.

(** X10: [unassignRole] sends a DELETE without body whose URL is
    [cloud/role_assignments?role=<roleKey>&user=<userKey>&scope=<tenantKey>]
    with the three keys put in as they are, unescaped; so calls with
    different keys can make the same request: a role key that ends in
    [&user=s] with user [u] asks what the role key without it and user
    [s&user=u] asks. *)
Theorem unassignRole_keys_are_not_escaped (r s u t : string) (w : World) :
  (forall userKey roleKey tenantKey,
     sent (snd (unassignRole debugMode client userKey roleKey tenantKey w))
     = sent w
       ++ [{| verb := DELETE;
              url := "cloud/role_assignments?role=" +:+ roleKey
                     +:+ "&user=" +:+ userKey +:+ "&scope=" +:+ tenantKey;
              body := None |}])
  /\ r +:+ "&user=" +:+ s <> r
  /\ sent (snd (unassignRole debugMode client u (r +:+ "&user=" +:+ s) t w))
     = sent (snd (unassignRole debugMode client (s +:+ "&user=" +:+ u) r t w)).
Proof.
  assert (forall userKey roleKey tenantKey,
            sent (snd (unassignRole debugMode client userKey roleKey tenantKey w))
            = sent w
              ++ [{| verb := DELETE;
                     url := "cloud/role_assignments?role=" +:+ roleKey
                            +:+ "&user=" +:+ userKey +:+ "&scope=" +:+ tenantKey;
                     body := None |}]) as Hsent.
  { intros userKey roleKey tenantKey. run_call. destruct debugMode; cbn;
      match goal with
      | |- context [client ?n ?q] => destruct (client n q); reflexivity
      end. }
  split; [exact Hsent|]. split.
  - intros Heq. rewrite <- (append_empty r) in Heq at 2.
    apply String.app_inj in Heq. discriminate Heq.
  - rewrite !Hsent. do 3 f_equal. rewrite !append_assoc. reflexivity.
Qed.

(** X11: in debug mode [unassignRole] announces itself with the line of
    [assignRole]: for the same keys both calls log the same info line
    first. *)
Theorem unassignRole_logs_as_assignRole (userKey roleKey tenantKey : string) (w : World) :
  debugMode = true ->
  exists line rest rest',
    level line = info
    /\ logger (snd (assignRole debugMode client userKey roleKey tenantKey w))
       = logger w ++ line :: rest
    /\ logger (snd (unassignRole debugMode client userKey roleKey tenantKey w))
       = logger w ++ line :: rest'.
Proof.
  intros ->.
  exists {| level := info;
            message := [Text "permit.api.assignRole(";
                        Json (roleAssignment userKey roleKey tenantKey); Text ")"] |}.
  run_call. cbn.
  repeat match goal with
    | |- context [client ?n ?r] => destruct (client n r); cbn
    end;
    eexists; eexists; (split; [reflexivity|split]);
    rewrite <- ?app_assoc; cbn; reflexivity.
Qed.

End MutationsProperties.

(** * Further properties of the guards of [src/api/base.ts] *)

Section GuardProperties.

Import Base.

Variable scopeApi : ScopeApi.

Ltac run_M :=
  unfold callGuard, ensureAccessLevel, ensureContext, setContextFromApiKey,
    getApiKeyScope, sendScopeRequest, awaitScopeResponse, applyScope,
    onScopeError, checkAccessLevel, checkContext, try_catch, throw, log,
    updateContext, getContext, mbind, M_bind, mret, M_ret in *;
  cbn [fst snd apiContext requests logger] in *.

(** A guard that is past the lookup, or needs none, leaves both levels set. *)
Lemma callGuard_leaves_initialised (g : Guard) (w : World) :
  resolutionFails scopeApi w = false ->
  waitForInit (apiContext (snd (callGuard scopeApi g w))) = false.
Proof.
  unfold resolutionFails. intros H.
  destruct (waitForInit (apiContext w)) eqn:Hwait; cbn in H.
  - apply negb_false_iff in H. apply callGuard_resolves; assumption.
  - rewrite callGuard_initialised by assumption. exact Hwait.
Qed.

Lemma callGuard_world (g1 g2 : Guard) (w : World) :
  snd (callGuard scopeApi g1 w) = snd (callGuard scopeApi g2 w).
Proof.
  rewrite !callGuard_unfold.
  destruct (waitForInit (apiContext w)).
  - destruct (setContextFromApiKey scopeApi w) as [[[]|e] w'];
      [rewrite !checkGuard_world|]; reflexivity.
  - rewrite !checkGuard_world. reflexivity.
Qed.

(** X12: what a guard does to the SDK does not depend on the guard: the
    context, the number of lookups made and the log are the same after
    [ensureAccessLevel] or [ensureContext] with any required level; only
    the outcome differs. *)
Theorem guard_effects_do_not_depend_on_the_guard (g1 g2 : Guard) (w : World) :
  snd (callGuard scopeApi g1 w) = snd (callGuard scopeApi g2 w).
Proof. apply callGuard_world. Qed.

(** X13: once both levels are set the guards only read: any number of
    them, in any order, leaves the context, the number of lookups made and
    the log as they were, and what each answers does not depend on the
    remote. *)
Theorem guards_only_read_once_initialised
    (gs : list Guard) (g : Guard) (w : World) (otherApi : ScopeApi) :
  waitForInit (apiContext w) = false ->
  runGuards scopeApi gs w = w
  /\ callGuard scopeApi g w = callGuard otherApi g w.
Proof.
  intros Hinit. split.
  - induction gs as [|g' gs IH]; [reflexivity|].
    cbn [runGuards]. rewrite callGuard_initialised by assumption. exact IH.
  - rewrite !callGuard_initialised by assumption. reflexivity.
Qed.

(** X14: [ensureContext] is monotone in what it requires: on the same SDK,
    when it passes for a required level it passes for every level that is
    not more specific. *)
Theorem ensureContext_passes_for_less_specific
    (required weaker : ApiContextLevel) (w : World) :
  (contextLevelValue weaker <= contextLevelValue required)%Z ->
  throws (fst (ensureContext scopeApi required w)) = false ->
  throws (fst (ensureContext scopeApi weaker w)) = false.
Proof.
  intros Hle.
  change (throws (fst (callGuard scopeApi (Context required) w)) = false ->
          throws (fst (callGuard scopeApi (Context weaker) w)) = false).
  pose proof (callGuard_world (Context required) (Context weaker) w) as Hsame.
  destruct (resolutionFails scopeApi w) eqn:Hfail.
  - destruct (callGuard_fails scopeApi (Context required) w Hfail) as (-> & _).
    discriminate.
  - rewrite !callGuard_check by assumption. rewrite <- Hsame.
    set (w1 := snd (callGuard scopeApi (Context required) w)).
    cbn [checkGuard].
    destruct (checkContext_throws required w1) as [-> _].
    destruct (checkContext_throws weaker w1) as [-> _].
    unfold lessSpecific.
    intros [Hlt Hwait]%orb_false_iff. rewrite Hwait, orb_false_r.
    apply Z.ltb_ge. apply Z.ltb_ge in Hlt. lia.
Qed.

(** X15: [ensureAccessLevel] is monotone the other way: on the same SDK,
    when it passes for a required level it passes for every level that
    comes no earlier in [API_ACCESS_LEVELS]. *)
Theorem ensureAccessLevel_passes_for_finer
    (required finer : ApiKeyLevel) (w : World) :
  (indexOf API_ACCESS_LEVELS required <= indexOf API_ACCESS_LEVELS finer)%Z ->
  throws (fst (ensureAccessLevel scopeApi required w)) = false ->
  throws (fst (ensureAccessLevel scopeApi finer w)) = false.
Proof.
  intros Hle.
  change (throws (fst (callGuard scopeApi (AccessLevel required) w)) = false ->
          throws (fst (callGuard scopeApi (AccessLevel finer) w)) = false).
  pose proof (callGuard_world (AccessLevel required) (AccessLevel finer) w) as Hsame.
  destruct (resolutionFails scopeApi w) eqn:Hfail.
  - destruct (callGuard_fails scopeApi (AccessLevel required) w Hfail) as (-> & _).
    discriminate.
  - rewrite !callGuard_check by assumption. rewrite <- Hsame.
    set (w1 := snd (callGuard scopeApi (AccessLevel required) w)).
    cbn [checkGuard].
    destruct (checkAccessLevel_throws required w1) as [-> _].
    destruct (checkAccessLevel_throws finer w1) as [-> _].
    unfold coarser. intros Hlt.
    apply Z.ltb_ge. apply Z.ltb_ge in Hlt. lia.
Qed.

(** X16: a required access level of WAIT_FOR_INIT can never be met:
    [ensureAccessLevel(WAIT_FOR_INIT)] throws a [PermitContextError] on
    every SDK and whatever the remote answers. *)
Theorem ensureAccessLevel_of_WAIT_FOR_INIT_throws (w : World) :
  throwsContextError (fst (ensureAccessLevel scopeApi KEY_WAIT_FOR_INIT w)) = true.
Proof.
  change (throwsContextError
            (fst (callGuard scopeApi (AccessLevel KEY_WAIT_FOR_INIT) w)) = true).
  destruct (resolutionFails scopeApi w) eqn:Hfail.
  - destruct (callGuard_fails scopeApi (AccessLevel KEY_WAIT_FOR_INIT) w Hfail) as (-> & _).
    reflexivity.
  - pose proof (callGuard_leaves_initialised (AccessLevel KEY_WAIT_FOR_INIT) w Hfail)
      as Hinit.
    rewrite callGuard_check by assumption. cbn [checkGuard].
    set (w1 := snd (callGuard scopeApi (AccessLevel KEY_WAIT_FOR_INIT) w)) in *.
    destruct (checkAccessLevel_throws KEY_WAIT_FOR_INIT w1) as [Hthrows ->].
    rewrite Hthrows. unfold waitForInit in Hinit.
    apply orb_false_iff in Hinit as [_ Hkey]. apply bool_decide_eq_false in Hkey.
    destruct (permittedAccessLevel (apiContext w1)); [contradiction|reflexivity..].
Qed.

(** X17: what the resolution routine writes to the log: always the debug
    line "Fetching api key scope" first; then one debug line when the scope
    is resolved, one error line when the lookup is rejected with an axios
    error, and nothing when it is rejected otherwise or answered without an
    organization. *)
Theorem setContextFromApiKey_log_lines (w : World) :
  exists lines,
    logger (snd (setContextFromApiKey scopeApi w))
    = logger w
      ++ {| log_level := debug; log_message := [Lit "Fetching api key scope"] |}
         :: lines
    /\ map log_level lines
       = match scopeApi (requests w) with
         | Normal data => if present (organization_id data) then [debug] else []
         | Throw e => if isAxiosError e then [error] else []
         end.
Proof.
  run_M. destruct (scopeApi (requests w)) as [data|e]; cbn.
  - destruct (organization_id data); cbn;
      try (exists []; split; reflexivity).
    destruct (project_id data); cbn; try destruct (environment_id data); cbn;
      eexists; (split; [rewrite <- app_assoc; reflexivity|reflexivity]).
  - destruct (isAxiosError e); cbn.
    + eexists. split; [rewrite <- app_assoc; reflexivity|reflexivity].
    + exists []. split; reflexivity.
Qed.

(** X18: among callers in flight together, a caller whose own lookup is
    rejected fails even when the context has been resolved by another
    caller in the meantime: once its answer is delivered and it is resumed
    it settles with the [PermitContextError] of the resolution, and the
    context is left as it was. *)
Theorem rejected_lookup_fails_its_caller
    (w : World) (tasks : list Task) (i : nat) (g : Guard) (n : nat) (e : JsError) :
  tasks !! i = Some (AwaitingScope g n) ->
  scopeApi n = Throw e ->
  let '(w', tasks') := schedule scopeApi [Deliver i; Resume i] (w, tasks) in
  tasks' !! i = Some (Settled (Throw (PermitContextError scopeErrorMessage)))
  /\ apiContext w' = apiContext w
  /\ requests w' = requests w.
Proof.
  intros Htask Hreply.
  assert (i < length tasks)%nat as Hlt by (eapply lookup_lt_Some; eassumption).
  unfold schedule. cbn [fold_left step]. rewrite Htask.
  unfold deliverScope. run_M. rewrite Hreply. cbn.
  destruct (isAxiosError e); cbn;
    rewrite list_lookup_insert_eq by assumption; cbn;
    rewrite list_lookup_insert_eq by (rewrite length_insert; assumption);
    auto.
Qed.

End GuardProperties.

(** * A further property of the elements client *)

Section ElementsLogin.

Import Elements.

Variable authApi : AuthenticationApi.

(** X19: in what [loginAs] returns, [content.url] is the [redirect_url] of
    the returned object itself, whether or not the remote body already had
    a [content] property (which is replaced); one debug line, and no other
    line, is logged. *)
Theorem loginAs_content_matches_redirect_url
    (userId tenantId : string) (lg : list LogLine) (response : AxiosResponse) :
  authApi userId tenantId = Normal response ->
  let '(c, lg') := loginAs authApi userId tenantId lg in
  exists res line,
    c = Normal res
    /\ js_get res "content" = JObj {["url" := js_get res "redirect_url"]}
    /\ js_get res "redirect_url" = js_get (data response) "redirect_url"
    /\ lg' = lg ++ [line] /\ log_level line = debug.
Proof.
  intros Hanswer. unfold loginAs. rewrite Hanswer. cbn.
  eexists; eexists. split; [reflexivity|].
  unfold js_get. rewrite lookup_insert_eq, lookup_insert_ne by discriminate.
  cbn. repeat split; reflexivity.
Qed.

End ElementsLogin.

(** * Concrete runs of the further properties *)

Section MutationsRuns.

Import Mutations.

Lemma cloud_call_rethrows_the_error_witness :
  (forall r, rejecting (AxiosError None) (length (sent newWorld)) r
             = Throw (AxiosError None))
  /\ let '(res, w') :=
       invoke true (rejecting (AxiosError None)) (DeleteUser "u") newWorld in
     res = Throw (AxiosError None)
     /\ exists earlier msg,
          logger w' = earlier ++ [{| level := error; message := msg |}]
          /\ In (OfError (AxiosError None)) msg.
Proof.
  split; [reflexivity|].
  apply (cloud_call_rethrows_the_error
           true (rejecting (AxiosError None)) (DeleteUser "u") newWorld
           (AxiosError None)).
  reflexivity.
Defined.

Lemma cloud_call_result_witness :
  (forall r, replying {| status := 204; data := JNull |} (length (sent newWorld)) r
             = Normal {| status := 204; data := JNull |})
  /\ fst (invoke false (replying {| status := 204; data := JNull |})
            (DeleteTenant "t") newWorld)
     = Normal (JNum 204).
Proof.
  split; [reflexivity|].
  apply (cloud_call_result
           false (replying {| status := 204; data := JNull |})
           (DeleteTenant "t") newWorld {| status := 204; data := JNull |}).
  reflexivity.
Defined.

Lemma unassignRole_logs_as_assignRole_witness :
  true = true
  /\ exists line rest rest',
       level line = info
       /\ logger (snd (assignRole true (rejecting (AxiosError None)) "u" "r" "t" newWorld))
          = logger newWorld ++ line :: rest
       /\ logger (snd (unassignRole true (rejecting (AxiosError None)) "u" "r" "t" newWorld))
          = logger newWorld ++ line :: rest'.
Proof.
  split; [reflexivity|].
  apply (unassignRole_logs_as_assignRole
           true (rejecting (AxiosError None)) "u" "r" "t" newWorld).
  reflexivity.
Defined.

End MutationsRuns.

Section GuardRuns.

Import Base.

Lemma guards_only_read_once_initialised_witness :
  let w := snd (setContextFromApiKey (answering organizationScope) newWorld) in
  waitForInit (apiContext w) = false
  /\ runGuards (answering organizationScope)
       [Context PROJECT; AccessLevel ENVIRONMENT_LEVEL_API_KEY] w = w
  /\ callGuard (answering organizationScope) (Context PROJECT) w
     = callGuard unreachable (Context PROJECT) w.
Proof.
  cbv zeta. split; [reflexivity|].
  apply (guards_only_read_once_initialised
           (answering organizationScope)
           [Context PROJECT; AccessLevel ENVIRONMENT_LEVEL_API_KEY]
           (Context PROJECT)
           (snd (setContextFromApiKey (answering organizationScope) newWorld))
           unreachable).
  reflexivity.
Defined.

Lemma ensureContext_passes_for_less_specific_witness :
  (contextLevelValue ORGANIZATION <= contextLevelValue PROJECT)%Z
  /\ throws (fst (ensureContext (answering environmentScope) PROJECT newWorld)) = false
  /\ throws (fst (ensureContext (answering environmentScope) ORGANIZATION newWorld)) = false.
Proof.
  split; [cbn; lia|]. split; [reflexivity|].
  apply (ensureContext_passes_for_less_specific
           (answering environmentScope) PROJECT ORGANIZATION newWorld).
  - cbn. lia.
  - reflexivity.
Defined.

Lemma ensureAccessLevel_passes_for_finer_witness :
  (indexOf API_ACCESS_LEVELS ORGANIZATION_LEVEL_API_KEY
   <= indexOf API_ACCESS_LEVELS ENVIRONMENT_LEVEL_API_KEY)%Z
  /\ throws (fst (ensureAccessLevel (answering organizationScope)
                    ORGANIZATION_LEVEL_API_KEY newWorld)) = false
  /\ throws (fst (ensureAccessLevel (answering organizationScope)
                    ENVIRONMENT_LEVEL_API_KEY newWorld)) = false.
Proof.
  split; [vm_compute; discriminate|]. split; [reflexivity|].
  apply (ensureAccessLevel_passes_for_finer
           (answering organizationScope)
           ORGANIZATION_LEVEL_API_KEY ENVIRONMENT_LEVEL_API_KEY newWorld).
  - vm_compute. discriminate.
  - reflexivity.
Defined.

Lemma rejected_lookup_fails_its_caller_witness :
  let w := snd (setContextFromApiKey (answering organizationScope) newWorld) in
  [AwaitingScope (Context ORGANIZATION) 0] !! 0%nat
  = Some (AwaitingScope (Context ORGANIZATION) 0)
  /\ unreachable 0%nat = Throw (AxiosError None)
  /\ waitForInit (apiContext w) = false
  /\ let '(w', tasks') :=
       schedule unreachable [Deliver 0; Resume 0]
         (w, [AwaitingScope (Context ORGANIZATION) 0]) in
     tasks' !! 0%nat = Some (Settled (Throw (PermitContextError scopeErrorMessage)))
     /\ apiContext w' = apiContext w
     /\ requests w' = requests w.
Proof.
  cbv zeta. split; [reflexivity|]. split; [reflexivity|]. split; [reflexivity|].
  apply (rejected_lookup_fails_its_caller
           unreachable
           (snd (setContextFromApiKey (answering organizationScope) newWorld))
           [AwaitingScope (Context ORGANIZATION) 0] 0 (Context ORGANIZATION) 0
           (AxiosError None));
    reflexivity.
Defined.

End GuardRuns.

Section ElementsRuns.

Import Elements.

Lemma loginAs_content_matches_redirect_url_witness :
  redirecting "https://app" "user" "tenant" = Normal (redirectResponse "https://app")
  /\ let '(c, lg') := loginAs (redirecting "https://app") "user" "tenant" [] in
     exists res line,
       c = Normal res
       /\ js_get res "content" = JObj {["url" := js_get res "redirect_url"]}
       /\ js_get res "redirect_url"
          = js_get (data (redirectResponse "https://app")) "redirect_url"
       /\ lg' = [] ++ [line] /\ log_level line = debug.
Proof.
  split; [reflexivity|].
  apply (loginAs_content_matches_redirect_url
           (redirecting "https://app") "user" "tenant" []
           (redirectResponse "https://app")).
  reflexivity.
Defined.

End ElementsRuns.
